(** * Verification of lib/pip.js (serverless-python-requirements)

    A shallow embedding of the installation orchestration of [lib/pip.js]:
    [executeCommand], [installRequirements], [runPostInstallScript],
    [dockerPathForWin], [generateRequirementsFile], [copyVendors] and
    [installAllRequirements], together with the JavaScript string
    primitives they rely on ([split], [trim], [join], [replace]). *)

From Stdlib Require Import NArith String Ascii DecimalString Lia.
From stdpp Require Import base decidable option list gmap.

Local Open Scope N_scope.

(** ** JavaScript strings

    A JavaScript string is a sequence of UTF-16 code units.  Equality of
    strings ([===], [Set.prototype.has], [Array.prototype.includes]) is
    equality of the code-unit sequences. *)

Module JsString.

Abbreviation jsstring := (list N).

(** An ASCII literal as a JavaScript string. *)
Definition lit (s : string) : jsstring :=
  (λ a, N_of_ascii a) <$> list_ascii_of_string s.

Definition TAB : N := 9.
Definition LF : N := 10.
Definition CR : N := 13.
Definition SPACE : N := 32.
Definition SLASH : N := 47.
Definition LT : N := 60.
Definition EQUALS : N := 61.
Definition GT : N := 62.
Definition BACKSLASH : N := 92.

(** [WhiteSpace] and [LineTerminator] of ECMAScript: the code units
    stripped by [String.prototype.trim]. *)
Definition isWhiteSpace (c : N) : bool :=
  (c =? 9) || (c =? 10) || (c =? 11) || (c =? 12) || (c =? 13)
  || (c =? 32) || (c =? 160) || (c =? 5760)
  || ((8192 <=? c) && (c <=? 8202))
  || (c =? 8232) || (c =? 8233) || (c =? 8239) || (c =? 8287)
  || (c =? 12288) || (c =? 65279).

Fixpoint trimStart (s : jsstring) : jsstring :=
  match s with
  | [] => []
  | c :: s' => if isWhiteSpace c then trimStart s' else s
  end.

Definition trimEnd (s : jsstring) : jsstring :=
  reverse (trimStart (reverse s)).

(** [s.trim()] *)
Definition trim (s : jsstring) : jsstring := trimEnd (trimStart s).

(** Prepend a code unit to the first piece of a split. *)
Definition extend (c : N) (pieces : list jsstring) : list jsstring :=
  match pieces with
  | [] => [[c]]
  | piece :: rest => (c :: piece) :: rest
  end.

(** [s.split(/[...]/)] for a regular expression that is a character
    class: every code unit of the class is a separator; the empty
    string splits into one empty piece. *)
Fixpoint split_class (sep : N → bool) (s : jsstring) : list jsstring :=
  match s with
  | [] => [[]]
  | c :: s' =>
      if sep c then [] :: split_class sep s'
      else extend c (split_class sep s')
  end.

(** [s.split(/\r?\n/)]: scanning from the left, a carriage return
    immediately followed by a line feed is one separator, a line feed
    alone is one separator, every other code unit (a carriage return
    not followed by a line feed included) belongs to the piece. *)
Fixpoint split_lines (s : jsstring) : list jsstring :=
  match s with
  | [] => [[]]
  | c :: s' =>
      if c =? LF then [] :: split_lines s'
      else
        match s' with
        | d :: s'' =>
            if (c =? CR) && (d =? LF) then [] :: split_lines s''
            else extend c (split_lines s')
        | [] => extend c (split_lines s')
        end
  end.

(** [pieces.join(sep)] *)
Fixpoint join (sep : jsstring) (pieces : list jsstring) : jsstring :=
  match pieces with
  | [] => []
  | x :: rest =>
      match rest with
      | [] => x
      | _ :: _ => x ++ sep ++ join sep rest
      end
  end.

(** [s.startsWith(p)] *)
Fixpoint startsWith (p s : jsstring) : bool :=
  match p, s with
  | [], _ => true
  | _ :: _, [] => false
  | a :: p', b :: s' => (a =? b) && startsWith p' s'
  end.

(** [s.replace(search, by)] for a string (not regular expression)
    pattern [search] and a replacement [by] without [$] patterns: the
    first occurrence of [search], found scanning from the left, is
    replaced; without an occurrence the string is returned as is. *)
Fixpoint replace (search by_ : jsstring) (s : jsstring) : jsstring :=
  if startsWith search s then by_ ++ drop (length search) s
  else
    match s with
    | [] => []
    | c :: s' => c :: replace search by_ s'
    end.

(** Decimal rendering of a number, as a template literal does. *)
Definition decimal (n : N) : jsstring :=
  lit (NilZero.string_of_uint (N.to_uint n)).

End JsString.

Import JsString.

Arguments lit : simpl never.


(** ** Paths

    [path.join] of a POSIX host: the non-empty arguments are joined with
    [/] and the result is normalised ([.] and empty segments dropped,
    [..] resolved against the segment before it). *)

Module Path.

Definition isSep (c : N) : bool := c =? SLASH.

(** One segment pushed on the stack of segments kept so far (last
    segment first). *)
Definition pushSegment (allowAboveRoot : bool) (stack : list jsstring)
    (seg : jsstring) : list jsstring :=
  if bool_decide (seg = [] ∨ seg = lit ".") then stack
  else if bool_decide (seg = lit "..") then
    match stack with
    | top :: below =>
        if bool_decide (top = lit "..") then seg :: stack else below
    | [] => if allowAboveRoot then [seg] else []
    end
  else seg :: stack.

Definition normalizeString (allowAboveRoot : bool) (p : jsstring) : jsstring :=
  join [SLASH]
    (reverse (foldl (pushSegment allowAboveRoot) [] (split_class isSep p))).

Definition normalize (p : jsstring) : jsstring :=
  match p with
  | [] => lit "."
  | c :: _ =>
      let isAbsolute := isSep c in
      let trailingSeparator :=
        match last p with Some d => isSep d | None => false end in
      let q := normalizeString (negb isAbsolute) p in
      match q with
      | [] =>
          if isAbsolute then lit "/"
          else if trailingSeparator then lit "./" else lit "."
      | _ :: _ =>
          let q := if trailingSeparator then q ++ [SLASH] else q in
          if isAbsolute then SLASH :: q else q
      end
  end.

Definition posix_join (a b : jsstring) : jsstring :=
  match a, b with
  | [], [] => lit "."
  | [], _ => normalize b
  | _, [] => normalize a
  | _, _ => normalize (a ++ SLASH :: b)
  end.

End Path.


(** ** Data model *)

(** [process.platform] *)
Inductive Platform :=
  aix | android | darwin | freebsd | linux | openbsd | sunos | win32.

Global Instance Platform_eq_dec : EqDecision Platform.
Proof. solve_decision. Defined.

(** A thrown JavaScript error: [new Error(message)] has no [code]; the
    errors Node reports for a failed system call carry one. *)
Record JsError := { code : option jsstring; message : jsstring }.

Definition newError (msg : jsstring) : JsError :=
  {| code := None; message := msg |}.

(** An optional string property: [None] is [undefined]. *)
Definition truthy (v : option jsstring) : bool :=
  match v with
  | Some (_ :: _) => true
  | _ => false
  end.

(** A value inside a template literal. *)
Definition toString (v : option jsstring) : jsstring :=
  default (lit "undefined") v.

(** An entry of [serverless.service.functions] (a deployment unit). *)
Module Func.
Record t := {
  module : option jsstring;
  vendor : option jsstring;
  pipPostInstallScript : option jsstring;
  pipPostInstallArgs : option (list jsstring);
}.

(** [set(f, ['module'], m)] *)
Definition set_module (m : jsstring) (f : t) : t :=
  {| module := Some m; vendor := vendor f;
     pipPostInstallScript := pipPostInstallScript f;
     pipPostInstallArgs := pipPostInstallArgs f |}.
End Func.

(** [this.options] *)
Module Options.
Record t := {
  dockerizePip : bool;
  dockerFile : option jsstring;
  dockerImage : jsstring;
  dockerSsh : bool;
  verbose : bool;
  pythonBin : jsstring;
  usePipenv : bool;
  pipCmdExtraArgs : list jsstring;
  noDeploy : option (list jsstring);
  fileName : jsstring;
  vendor : option jsstring;
  pipPostInstallScript : option jsstring;
  pipPostInstallArgs : option (list jsstring);
}.
End Options.

(** The plugin instance [this] of [installAllRequirements]. *)
Record Plugin := {
  servicePath : jsstring;
  individually : bool;   (* this.serverless.service.package.individually *)
  options : Options.t;
}.

(** The arguments of one [spawnSync] call. *)
Record SpawnCall := { cmd : jsstring; args : list jsstring; cwd : jsstring }.

(** What [spawnSync] returns. *)
Record SpawnResult := {
  error : option JsError;
  status : option Z;          (* null when the process did not exit *)
  stdout : option jsstring;
  stderr : jsstring;
}.

(** The host the plugin runs on: everything the code reads from its
    environment or delegates to a collaborator. *)
Record Host := {
  platform : Platform;
  getuid : N;
  HOME : option jsstring;
  SSH_AUTH_SOCK : option jsstring;
  path_join : jsstring → jsstring → jsstring;
  (** the outcome of a child process, given the processes run before *)
  spawnSync : list SpawnCall → SpawnCall → SpawnResult;
  (** [fse.ensureDirSync]: the error it throws, if any *)
  ensureDirSync : jsstring → option JsError;
  (** the directory walk of [copyVendors] (readdir, rimraf, copy) *)
  copyTree : jsstring → jsstring → option JsError;
  (** [buildImage], [getBindPath] and [getDockerUid] of [./docker],
      whose code is not among the sources verified here: the image
      builder returns an image reference, [getDockerUid] the numeric
      owner it finds for the bind-mounted directory. *)
  buildImage : jsstring → jsstring;
  getBindPath : jsstring → jsstring;
  getDockerUid : jsstring → jsstring;
}.

(** The mutable world: text files by path, the function objects of the
    service (shared with the framework, in [values] order), the lines
    given to [serverless.cli.log], the child processes run, and a
    history of the installer runs started by [installRequirements]
    (requirements path and target folder), kept for specification
    only. *)
Record World := {
  files : gmap jsstring jsstring;
  functions : list Func.t;
  logged : list jsstring;
  spawned : list SpawnCall;
  installs : list (jsstring * jsstring);
}.

(** ** Exceptions and state *)

Inductive Result (A : Type) :=
  | Ok (a : A)
  | Throw (e : JsError).
Arguments Ok {A} a.
Arguments Throw {A} e.

Definition Exec (A : Type) : Type := World → Result A * World.

Global Instance Exec_ret : MRet Exec := λ A a w, (Ok a, w).
Global Instance Exec_bind : MBind Exec := λ A B k m w,
  match m w with
  | (Ok a, w') => k a w'
  | (Throw e, w') => (Throw e, w')
  end.

Definition throw {A} (e : JsError) : Exec A := λ w, (Throw e, w).

(** A collaborator call that either throws or returns nothing. *)
Definition attempt (r : option JsError) : Exec unit :=
  match r with
  | Some e => throw e
  | None => mret ()
  end.

Definition when (b : bool) (m : Exec unit) : Exec unit :=
  if b then m else mret ().

(** ** World primitives *)

Definition typeError : JsError :=
  {| code := Some (lit "ERR_INVALID_ARG_TYPE");
     message := lit "The argument must be of type string" |}.

(** [serverless.cli.log(msg)] *)
Definition cli_log (msg : jsstring) : Exec unit := λ w,
  (Ok (), {| files := files w; functions := functions w;
             logged := logged w ++ [msg]; spawned := spawned w;
             installs := installs w |}).

(** [fse.readFileSync(p, {encoding: 'utf-8'})] *)
Definition readFileSync (p : jsstring) : Exec jsstring := λ w,
  match files w !! p with
  | Some content => (Ok content, w)
  | None =>
      (Throw {| code := Some (lit "ENOENT");
                message := lit "ENOENT: no such file or directory, open '"
                             ++ p ++ lit "'" |}, w)
  end.

(** [fse.writeFileSync(p, content)] *)
Definition writeFileSync (p content : jsstring) : Exec unit := λ w,
  (Ok (), {| files := <[p := content]> (files w); functions := functions w;
             logged := logged w; spawned := spawned w;
             installs := installs w |}).

(** [fse.existsSync(p)] *)
Definition existsSync (p : jsstring) : Exec bool := λ w,
  (Ok (bool_decide (is_Some (files w !! p))), w).

(** The function object at position [i] of [values(functions)]. *)
Definition readFunction (i : nat) : Exec Func.t := λ w,
  match functions w !! i with
  | Some f => (Ok f, w)
  | None => (Throw typeError, w)
  end.

(** [set(f, ['module'], m)] on the function object at position [i]: the
    object is the framework's, the update is seen by every holder. *)
Definition setModule (i : nat) (m : jsstring) : Exec unit := λ w,
  (Ok (), {| files := files w;
             functions := alter (Func.set_module m) i (functions w);
             logged := logged w; spawned := spawned w;
             installs := installs w |}).

Definition noteInstall (requirementsPath targetFolder : jsstring) : Exec unit :=
  λ w,
  (Ok (), {| files := files w; functions := functions w;
             logged := logged w; spawned := spawned w;
             installs := installs w ++ [(requirementsPath, targetFolder)] |}).

Definition countFunctions : Exec nat := λ w, (Ok (length (functions w)), w).

(** [array.forEach] over the positions of an array, threading the
    variables the callback updates. *)
Fixpoint forEach {S : Type} (body : S → nat → Exec S) (acc : S)
    (indices : list nat) : Exec S :=
  match indices with
  | [] => mret acc
  | i :: rest => acc' ← body acc i; forEach body acc' rest
  end.

(** ** The functions of lib/pip.js *)

(** The regular expression [/[=<> \t]/]. *)
Definition isDelimiter (c : N) : bool :=
  (c =? EQUALS) || (c =? LT) || (c =? GT) || (c =? SPACE) || (c =? TAB).

(** [req.split(/[=<> \t]/)[0].trim()] *)
Definition requirementName (req : jsstring) : jsstring :=
  trim (default [] (split_class isDelimiter req !! 0%nat)).

(** [new Set(options.noDeploy || [])] *)
Definition noDeploySet (options : Options.t) : gset jsstring :=
  list_to_set (default [] (Options.noDeploy options)).

(** [dockerPathForWin(options, path)], on a host of the given platform. *)
Definition dockerPathForWin (pf : Platform) (options : Options.t)
    (path : jsstring) : jsstring :=
  if bool_decide (pf = win32) && Options.dockerizePip options
  then replace [BACKSLASH] [SLASH] path
  else path.

(** [generateRequirementsFile(source, target, options)] *)
Definition generateRequirementsFile (source target : jsstring)
    (options : Options.t) : Exec unit :=
  let noDeploy := noDeploySet options in
  content ← readFileSync source;
  let requirements := split_lines content in
  let filteredRequirements :=
    filter (λ req, requirementName req ∉ noDeploy) requirements in
  writeFileSync target (join [LF] filteredRequirements).

Section Pip.

Context (host : Host).

(** [spawnSync(cmd, cmdOptions, {cwd: servicePath, shell: true})] *)
Definition spawn (cmd : jsstring) (cmdOptions : list jsstring)
    (servicePath : jsstring) : Exec SpawnResult := λ w,
  let call := {| cmd := cmd; args := cmdOptions; cwd := servicePath |} in
  (Ok (spawnSync host (spawned w) call),
   {| files := files w; functions := functions w; logged := logged w;
      spawned := spawned w ++ [call]; installs := installs w |}).

(** The [docker run] arguments built by [executeCommand]. *)
Definition dockerOptions (commandAndArguments : list jsstring)
    (servicePath : jsstring) (options : Options.t) (useShellAlways : bool)
    (dockerImage : jsstring) : list jsstring :=
  let bindPath := getBindPath host servicePath in
  let cmdOptions :=
    [lit "run"; lit "--rm"; lit "-v"; bindPath ++ lit ":/var/task:z"] in
  let cmdOptions :=
    if Options.dockerSsh options then
      cmdOptions
        ++ [lit "-v"; toString (HOME host) ++ lit "/.ssh/id_rsa:/root/.ssh/id_rsa:z"]
        ++ [lit "-v"; toString (HOME host)
                        ++ lit "/.ssh/known_hosts:/root/.ssh/known_hosts:z"]
        ++ [lit "-v"; toString (SSH_AUTH_SOCK host) ++ lit ":/tmp/ssh_sock:z"]
        ++ [lit "-e"; lit "SSH_AUTH_SOCK=/tmp/ssh_sock"]
    else cmdOptions in
  let cmdOptions :=
    if bool_decide (platform host = linux) then
      cmdOptions ++ [lit "-u"; decimal (getuid host)]
    else
      cmdOptions ++ [lit "-u"; getDockerUid host bindPath] in
  let cmdOptions := cmdOptions ++ [dockerImage] in
  if useShellAlways then
    cmdOptions
      ++ [lit "/bin/bash"; lit "-c";
          lit "'" ++ join (lit " ") commandAndArguments ++ lit "'"]
  else cmdOptions ++ commandAndArguments.

(** [executeCommand(commandAndArguments, serverless, servicePath,
    options, useShellAlways)] *)
Definition executeCommand (commandAndArguments : list jsstring)
    (servicePath : jsstring) (options : Options.t) (useShellAlways : bool)
    : Exec unit :=
  '(cmd, cmdOptions) ←
    (if Options.dockerizePip options then
       dockerImage ←
         (if truthy (Options.dockerFile options) then
            cli_log (lit "Building custom docker image from "
                       ++ toString (Options.dockerFile options) ++ lit "...");;
            mret (buildImage host (toString (Options.dockerFile options)))
          else mret (Options.dockerImage options));
       cli_log (lit "Docker Image: " ++ dockerImage);;
       mret (Some (lit "docker"),
             dockerOptions commandAndArguments servicePath options
               useShellAlways dockerImage)
     else
       mret (commandAndArguments !! 0%nat, drop 1 commandAndArguments));
  cli_log (lit "running " ++ toString cmd ++ lit " "
             ++ join (lit " ") cmdOptions);;
  res ← match cmd with
        | Some c => spawn c cmdOptions servicePath
        | None => throw typeError
        end;
  when (Options.verbose options)
    (match stdout res with
     | Some outText => when (bool_decide (outText ≠ [])) (cli_log outText)
     | None => mret ()
     end);;
  match error res with
  | Some e =>
      if bool_decide (code e = Some (lit "ENOENT")) then
        if Options.dockerizePip options then
          throw (newError (lit "docker not found! Please install it."))
        else
          throw (newError (Options.pythonBin options
                             ++ lit " not found! Try the pythonBin option."))
      else throw e
  | None =>
      if bool_decide (status res ≠ Some 0%Z) then
        throw (newError (stderr res))
      else mret ()
  end.

(** [installRequirements(requirementsPath, targetFolder, serverless,
    servicePath, options)] *)
Definition installRequirements (requirementsPath targetFolder : jsstring)
    (servicePath : jsstring) (options : Options.t) : Exec unit :=
  let targetRequirementsFolder :=
    path_join host targetFolder (lit "requirements") in
  attempt (ensureDirSync host targetRequirementsFolder);;
  let dotSlsReqs := path_join host targetFolder (lit "requirements.txt") in
  pipfile ←
    (if Options.usePipenv options
     then existsSync (path_join host servicePath (lit "Pipfile"))
     else mret false);
  (if pipfile : bool
   then generateRequirementsFile dotSlsReqs dotSlsReqs options
   else generateRequirementsFile requirementsPath dotSlsReqs options);;
  cli_log (lit "Installing requirements of " ++ requirementsPath
             ++ lit " in " ++ targetFolder ++ lit "...");;
  let pipCmd :=
    [Options.pythonBin options; lit "-m"; lit "pip"; lit "--isolated";
     lit "install";
     lit "-t"; dockerPathForWin (platform host) options targetRequirementsFolder;
     lit "-r"; dockerPathForWin (platform host) options dotSlsReqs]
    ++ Options.pipCmdExtraArgs options in
  noteInstall requirementsPath targetFolder;;
  executeCommand pipCmd servicePath options false.

(** [runPostInstallScript(command, cmdArgs, targetFolder, serverless,
    servicePath, options)] *)
Definition runPostInstallScript (command : jsstring)
    (cmdArgs : option (list jsstring)) (targetFolder : jsstring)
    (servicePath : jsstring) (options : Options.t) : Exec unit :=
  let targetRequirementsFolder :=
    path_join host targetFolder (lit "requirements") in
  let cmdArgs := default [] cmdArgs in
  let cmd := [command; targetRequirementsFolder] ++ cmdArgs in
  executeCommand cmd servicePath options true.

(** [copyVendors(vendorFolder, targetFolder, serverless)] *)
Definition copyVendors (vendorFolder targetFolder : jsstring) : Exec unit :=
  let targetRequirementsFolder :=
    path_join host targetFolder (lit "requirements") in
  cli_log (lit "Copying vendor libraries from " ++ vendorFolder ++ lit " to "
             ++ targetRequirementsFolder ++ lit "...");;
  attempt (copyTree host vendorFolder targetRequirementsFolder).

(** The guarded body of the callback of [forEach] in
    [installAllRequirements], for a function [f] whose [module] is
    set; [doneModules] is returned updated. *)
Definition installModule (this : Plugin) (f : Func.t)
    (doneModules : list jsstring) : Exec (list jsstring) :=
  let module := toString (Func.module f) in
  if bool_decide (module ∈ doneModules) then mret doneModules
  else
    installRequirements
      (path_join host module (Options.fileName (options this)))
      (path_join host (lit ".serverless") module)
      (servicePath this) (options this);;
    when (truthy (Func.vendor f))
      (copyVendors (toString (Func.vendor f))
         (path_join host (lit ".serverless") module));;
    when (truthy (Func.pipPostInstallScript f))
      (runPostInstallScript
         (toString (Func.pipPostInstallScript f))
         (Func.pipPostInstallArgs f)
         (path_join host (lit ".serverless") module)
         (servicePath this) (options this));;
    mret (doneModules ++ [module]).

(** The callback of [forEach] in [installAllRequirements], for the
    function at position [i]: an unset [module] is defaulted on the
    function object itself, then the guarded body runs. *)
Definition perFunction (this : Plugin) (doneModules : list jsstring)
    (i : nat) : Exec (list jsstring) :=
  f ← readFunction i;
  when (negb (truthy (Func.module f))) (setModule i (lit "."));;
  f ← readFunction i;
  installModule this f doneModules.

(** [installAllRequirements()] *)
Definition installAllRequirements (this : Plugin) : Exec unit :=
  attempt (ensureDirSync host
             (path_join host (servicePath this) (lit ".serverless")));;
  if individually this then
    n ← countFunctions;
    forEach (perFunction this) [] (seq 0 n);;
    mret ()
  else
    installRequirements (Options.fileName (options this)) (lit ".serverless")
      (servicePath this) (options this);;
    when (truthy (Options.vendor (options this)))
      (copyVendors (toString (Options.vendor (options this)))
         (lit ".serverless"));;
    when (truthy (Options.pipPostInstallScript (options this)))
      (runPostInstallScript
         (toString (Options.pipPostInstallScript (options this)))
         (Options.pipPostInstallArgs (options this))
         (lit ".serverless") (servicePath this) (options this)).

End Pip.

(** ** The manifest filter in the words of the specification *)

(** The characters that end the leading package name of a line. *)
Definition nameDelimiters : list N := [EQUALS; LT; GT; SPACE; TAB].

(** The substring of a line before the first occurrence of any of the
    characters [= < > space tab]. *)
Fixpoint beforeFirstDelimiter (line : jsstring) : jsstring :=
  match line with
  | [] => []
  | c :: rest =>
      if bool_decide (c ∈ nameDelimiters) then []
      else c :: beforeFirstDelimiter rest
  end.

(** The leading package name of a line: that substring, trimmed. *)
Definition leadingPackageName (line : jsstring) : jsstring :=
  trim (beforeFirstDelimiter line).

(** The text [generateRequirementsFile] writes for a source text. *)
Definition filterManifest (noDeploy : gset jsstring) (content : jsstring)
    : jsstring :=
  join [LF] (filter (λ req, requirementName req ∉ noDeploy) (split_lines content)).

(** Does a text contain a carriage return immediately followed by a
    line feed? *)
Fixpoint hasCRLF (s : jsstring) : bool :=
  match s with
  | [] => false
  | c :: s' =>
      match s' with
      | d :: _ => ((c =? CR) && (d =? LF)) || hasCRLF s'
      | [] => false
      end
  end.

(** [path] with its first backslash, if any, turned into a slash. *)
Fixpoint rewriteFirstSeparator (path : jsstring) : jsstring :=
  match path with
  | [] => []
  | c :: rest =>
      if c =? BACKSLASH then SLASH :: rest
      else c :: rewriteFirstSeparator rest
  end.

(** ** Frame: what an operation leaves alone *)

(** [keeps m]: whatever its outcome, [m] changes neither the function
    objects nor the history of installer runs. *)
Definition keeps {A} (m : Exec A) : Prop :=
  ∀ w, functions (m w).2 = functions w ∧ installs (m w).2 = installs w.


(** ** Deduplication and mutation in the words of the specification *)

(** The module identifier of a deployment unit: its [module], or ["."]
    when that is unset (or empty). *)
Definition moduleId (f : Func.t) : jsstring :=
  if truthy (Func.module f) then toString (Func.module f) else lit ".".

(** The identifiers that claim an installation, in order: each one the
    first time it is met, given those already [seen]. *)
Fixpoint firstClaims (seen : list jsstring) (ids : list jsstring)
    : list jsstring :=
  match ids with
  | [] => []
  | m :: rest =>
      if bool_decide (m ∈ seen) then firstClaims seen rest
      else m :: firstClaims (seen ++ [m]) rest
  end.

(** A unit after a run is the unit before it, possibly with its unset
    (or empty) [module] defaulted to ["."]. *)
Definition defaulted (before after : Func.t) : Prop :=
  after = before
  ∨ (truthy (Func.module before) = false
     ∧ after = Func.set_module (lit ".") before).

(** The argument that follows the first [flag] of an argument vector. *)
Fixpoint argAfter (flag : jsstring) (args : list jsstring) : option jsstring :=
  match args with
  | [] => None
  | a :: rest => if bool_decide (a = flag) then head rest else argAfter flag rest
  end.

(** ** Example hosts, options and worlds *)

Definition exited (st : Z) (err : jsstring) : SpawnResult :=
  {| error := None; status := Some st; stdout := Some []; stderr := err |}.

Definition notStarted (e : JsError) : SpawnResult :=
  {| error := Some e; status := None; stdout := None; stderr := [] |}.

(** A POSIX host on which every child process has the given outcome. *)
Definition posixHost (pf : Platform) (uid : N) (outcome : SpawnResult) : Host :=
  {| platform := pf; getuid := uid;
     HOME := Some (lit "/home/dev");
     SSH_AUTH_SOCK := Some (lit "/tmp/agent.sock");
     path_join := Path.posix_join;
     spawnSync := λ _ _, outcome;
     ensureDirSync := λ _, None;
     copyTree := λ _ _, None;
     buildImage := λ _, lit "sls-py-reqs-custom";
     getBindPath := λ p, p;
     getDockerUid := λ _, lit "0" |}.

Definition exampleOptions (docker : bool) (denied : list jsstring) : Options.t :=
  {| Options.dockerizePip := docker;
     Options.dockerFile := None;
     Options.dockerImage := lit "lambci/lambda:build-python3.6";
     Options.dockerSsh := false;
     Options.verbose := false;
     Options.pythonBin := lit "python3.6";
     Options.usePipenv := false;
     Options.pipCmdExtraArgs := [];
     Options.noDeploy := Some denied;
     Options.fileName := lit "requirements.txt";
     Options.vendor := None;
     Options.pipPostInstallScript := None;
     Options.pipPostInstallArgs := None |}.

Definition exampleWorld (fs : list (jsstring * jsstring)) (units : list Func.t)
    : World :=
  {| files := list_to_map fs; functions := units; logged := [];
     spawned := []; installs := [] |}.

Definition unit_ (m : option jsstring) : Func.t :=
  {| Func.module := m; Func.vendor := None;
     Func.pipPostInstallScript := None; Func.pipPostInstallArgs := None |}.

Definition exampleManifest : jsstring :=
  join [LF] [lit "numpy==1.2.3"; lit "boto3"; lit "simplejson>=3.0"].

(** The image [executeCommand] runs in container mode. *)
Definition imageOf (host : Host) (opts : Options.t) : jsstring :=
  if truthy (Options.dockerFile opts)
  then buildImage host (toString (Options.dockerFile opts))
  else Options.dockerImage opts.

(** Errors of a child process that could not be started. *)
Definition enoent : JsError :=
  {| code := Some (lit "ENOENT"); message := lit "spawn ENOENT" |}.

Definition eacces : JsError :=
  {| code := Some (lit "EACCES"); message := lit "spawn EACCES" |}.


(** [keepsUnits m]: whatever its outcome, [m] changes no function
    object. *)
Definition keepsUnits {A} (m : Exec A) : Prop :=
  ∀ w, functions (m w).2 = functions w.

(** ** Reasoning about runs *)

(** [hoare P m Q]: from a world satisfying [P], the outcome and final
    world of [m] satisfy [Q]. *)
Definition hoare {A} (P : World → Prop) (m : Exec A)
    (Q : Result A → World → Prop) : Prop :=
  ∀ w, P w → Q (m w).1 (m w).2.

(** The world holds the units [units0] up to defaulting of [module],
    and the history of installer runs is [runs]. *)
Definition st (units0 : list Func.t) (runs : list (jsstring * jsstring))
    (w : World) : Prop :=
  Forall2 defaulted units0 (functions w) ∧ installs w = runs.

(** The installer run of per-unit mode for module identifier [m]:
    requirements path and target folder. *)
Definition installOf (host : Host) (this : Plugin) (m : jsstring)
    : jsstring * jsstring :=
  (path_join host m (Options.fileName (options this)),
   path_join host (lit ".serverless") m).

(** A service of three units: two on the project root (one leaving
    [module] unset, one naming ["."]) and one on [svc2]. *)
Definition exampleUnits : list Func.t :=
  [unit_ None; unit_ (Some (lit "svc2")); unit_ (Some (lit "."))].

Definition examplePlugin (perUnit : bool) : Plugin :=
  {| servicePath := lit "/srv"; individually := perUnit;
     options := exampleOptions false [lit "boto3"] |}.

Definition exampleService : World :=
  exampleWorld
    [(lit "requirements.txt", exampleManifest);
     (lit "svc2/requirements.txt", lit "six")]
    exampleUnits.

(** ** Variations of a host and of the options *)

(** The options with other project-wide vendor and post-install hook
    settings. *)
Definition withGlobalExtras (opts : Options.t) (v s : option jsstring)
    (a : option (list jsstring)) : Options.t :=
  {| Options.dockerizePip := Options.dockerizePip opts;
     Options.dockerFile := Options.dockerFile opts;
     Options.dockerImage := Options.dockerImage opts;
     Options.dockerSsh := Options.dockerSsh opts;
     Options.verbose := Options.verbose opts;
     Options.pythonBin := Options.pythonBin opts;
     Options.usePipenv := Options.usePipenv opts;
     Options.pipCmdExtraArgs := Options.pipCmdExtraArgs opts;
     Options.noDeploy := Options.noDeploy opts;
     Options.fileName := Options.fileName opts;
     Options.vendor := v;
     Options.pipPostInstallScript := s;
     Options.pipPostInstallArgs := a |}.

(** The world with other function objects. *)
Definition withFunctions (w : World) (units : list Func.t) : World :=
  {| files := files w; functions := units; logged := logged w;
     spawned := spawned w; installs := installs w |}.

(** [oblivious m]: [m] neither reads nor writes the function objects. *)
Definition oblivious {A} (m : Exec A) : Prop :=
  ∀ w units, m (withFunctions w units)
             = ((m w).1, withFunctions (m w).2 units).

(** [keepsFiles m]: whatever its outcome, [m] writes no text file. *)
Definition keepsFiles {A} (m : Exec A) : Prop :=
  ∀ w, files (m w).2 = files w.

(** The number of backslashes of a path. *)
Definition backslashes (p : jsstring) : nat :=
  length (filter (λ c, c = BACKSLASH) p).

(** ** The processes of a run *)


(** The pip command line [installRequirements] builds for a target
    folder. *)
Definition pipVector (host : Host) (opts : Options.t) (targetFolder : jsstring)
    : list jsstring :=
  [Options.pythonBin opts; lit "-m"; lit "pip"; lit "--isolated";
   lit "install";
   lit "-t"; dockerPathForWin (platform host) opts
               (path_join host targetFolder (lit "requirements"));
   lit "-r"; dockerPathForWin (platform host) opts
               (path_join host targetFolder (lit "requirements.txt"))]
  ++ Options.pipCmdExtraArgs opts.

(** What [executeCommand] hands to [spawnSync] for a command vector. *)
Definition processOf (host : Host) (c : list jsstring) (sp : jsstring)
    (opts : Options.t) (sh : bool) : SpawnCall :=
  {| cmd := if Options.dockerizePip opts then lit "docker"
            else toString (c !! 0%nat);
     args := if Options.dockerizePip opts
             then dockerOptions host c sp opts sh (imageOf host opts)
             else drop 1 c;
     cwd := sp |}.

(** The installer process for a target folder. *)
Definition installerProcess (host : Host) (sp : jsstring) (opts : Options.t)
    (targetFolder : jsstring) : SpawnCall :=
  processOf host (pipVector host opts targetFolder) sp opts false.

(** The hook process for a target folder, if a hook is configured. *)
Definition hookProcesses (host : Host) (sp : jsstring) (opts : Options.t)
    (targetFolder : jsstring) (script : option jsstring)
    (scriptArgs : option (list jsstring)) : list SpawnCall :=
  if truthy script then
    [processOf host
       (toString script :: path_join host targetFolder (lit "requirements")
          :: default [] scriptArgs)
       sp opts true]
  else [].

(** The processes of one installation of per-unit mode, for the module
    identifier [m] and the hook settings of the unit that claims it:
    the installer, then the hook if there is one. *)
Definition moduleProcesses (host : Host) (this : Plugin) (m : jsstring)
    (script : option jsstring) (scriptArgs : option (list jsstring))
    : list SpawnCall :=
  installerProcess host (servicePath this) (options this)
    (path_join host (lit ".serverless") m)
  :: hookProcesses host (servicePath this) (options this)
       (path_join host (lit ".serverless") m) script scriptArgs.

Definition unitProcesses (host : Host) (this : Plugin) (g : Func.t)
    : list SpawnCall :=
  moduleProcesses host this (moduleId g)
    (Func.pipPostInstallScript g) (Func.pipPostInstallArgs g).

(** The processes of single-pass mode. *)
Definition projectProcesses (host : Host) (this : Plugin) : list SpawnCall :=
  installerProcess host (servicePath this) (options this) (lit ".serverless")
  :: hookProcesses host (servicePath this) (options this) (lit ".serverless")
       (Options.pipPostInstallScript (options this))
       (Options.pipPostInstallArgs (options this)).

(** The units that claim an installation, in order: each unit whose
    module identifier was not met before, given those already [seen]. *)
Fixpoint firstClaimUnits (seen : list jsstring) (units : list Func.t)
    : list Func.t :=
  match units with
  | [] => []
  | g :: rest =>
      if bool_decide (moduleId g ∈ seen) then firstClaimUnits seen rest
      else g :: firstClaimUnits (seen ++ [moduleId g]) rest
  end.

(** [quiet m]: whatever its outcome, [m] starts no process and changes
    no function object. *)
Definition quiet {A} (m : Exec A) : Prop :=
  ∀ w, functions (m w).2 = functions w ∧ spawned (m w).2 = spawned w.

(** The world holds the units [units0] up to defaulting of [module],
    and the processes started so far are [started]. *)
Definition ran (units0 : list Func.t) (started : list SpawnCall) (w : World)
    : Prop :=
  Forall2 defaulted units0 (functions w) ∧ spawned w = started.

(** As [ran], for processes that are [started] followed by some first
    part of [next]. *)
Definition ranPrefix (units0 : list Func.t) (started next : list SpawnCall)
    (w : World) : Prop :=
  ∃ l, l `prefix_of` next ∧ ran units0 (started ++ l) w.
(** ** Lemmas on strings *)

Lemma isDelimiter_spec c : isDelimiter c = bool_decide (c ∈ nameDelimiters).
Proof.
  unfold isDelimiter, nameDelimiters, EQUALS, LT, GT, SPACE, TAB.
  case_bool_decide as H.
  - rewrite !elem_of_cons in H.
    destruct H as [->|[->|[->|[->|[->|H]]]]]; try reflexivity.
    by apply elem_of_nil in H.
  - rewrite !elem_of_cons in H.
    destruct (N.eqb_spec c 61) as [->|?]; [exfalso; apply H; tauto|].
    destruct (N.eqb_spec c 60) as [->|?]; [exfalso; apply H; tauto|].
    destruct (N.eqb_spec c 62) as [->|?]; [exfalso; apply H; tauto|].
    destruct (N.eqb_spec c 32) as [->|?]; [exfalso; apply H; tauto|].
    destruct (N.eqb_spec c 9) as [->|?]; [exfalso; apply H; tauto|].
    reflexivity.
Qed.

Lemma split_class_first sep s :
  ∃ rest, split_class sep s =
            (fix before (l : jsstring) : jsstring :=
               match l with
               | [] => []
               | c :: r => if sep c then [] else c :: before r
               end) s :: rest.
Proof.
  induction s as [|c s [rest IH]]; simpl.
  - by exists [].
  - destruct (sep c).
    + by eexists.
    + rewrite IH. simpl. by eexists.
Qed.

Lemma requirementName_spec line : requirementName line = leadingPackageName line.
Proof.
  unfold requirementName, leadingPackageName.
  destruct (split_class_first isDelimiter line) as [rest ->]. simpl.
  f_equal. induction line as [|c l IH]; [done|]. simpl.
  rewrite isDelimiter_spec. case_bool_decide; [done|]. by rewrite IH.
Qed.

Lemma split_lines_nonempty s : split_lines s ≠ [].
Proof.
  destruct s as [|c s]; [done|]. cbn [split_lines].
  destruct (c =? LF); [done|].
  assert (extend c (split_lines s) ≠ []) by (by destruct (split_lines s)).
  destruct s as [|d s]; [done|].
  by destruct ((c =? CR) && (d =? LF)).
Qed.

Lemma join_extend sep c pieces :
  pieces ≠ [] → join sep (extend c pieces) = c :: join sep pieces.
Proof. destruct pieces as [|x [|y r]]; done. Qed.

Lemma join_cons_cons sep x y rest :
  join sep (x :: y :: rest) = x ++ sep ++ join sep (y :: rest).
Proof. done. Qed.

Lemma split_lines_line x :
  LF ∉ x → split_lines x = [x].
Proof.
  induction x as [|c x IH]; intros Hx; [done|].
  apply not_elem_of_cons in Hx as [Hc Hx]. specialize (IH Hx).
  cbn [split_lines]. destruct (N.eqb_spec c LF) as [->|_]; [done|].
  destruct x as [|d x]; [done|].
  apply not_elem_of_cons in Hx as [Hd _].
  destruct (N.eqb_spec d LF) as [->|_]; [done|].
  rewrite andb_false_r, IH. done.
Qed.

Lemma split_lines_app_LF x t :
  LF ∉ x → last x ≠ Some CR →
  split_lines (x ++ LF :: t) = x :: split_lines t.
Proof.
  induction x as [|c x IH]; intros Hx Hlast; [done|].
  apply not_elem_of_cons in Hx as [Hc Hx].
  cbn [app split_lines]. destruct (N.eqb_spec c LF) as [->|_]; [done|].
  destruct x as [|d x].
  - cbn [app]. rewrite N.eqb_refl, andb_true_r.
    destruct (N.eqb_spec c CR) as [->|_]; [done|]. done.
  - assert (Hd : d ≠ LF) by (by apply not_elem_of_cons in Hx as [? _]).
    cbn [app]. destruct (N.eqb_spec d LF) as [->|_]; [done|].
    rewrite andb_false_r.
    change (d :: x ++ LF :: t) with ((d :: x) ++ LF :: t).
    rewrite IH; [done|done|]. by rewrite last_cons_cons in Hlast.
Qed.

(** Splitting undoes joining, for lines without line feed none of which
    ends in a carriage return. *)
Lemma split_lines_join lines :
  lines ≠ [] →
  Forall (λ x, LF ∉ x) lines →
  Forall (λ x, last x ≠ Some CR) lines →
  split_lines (join [LF] lines) = lines.
Proof.
  induction lines as [|x [|y rest] IH]; intros Hne Hlf Hcr; [done| |].
  - simpl. apply split_lines_line. by apply Forall_inv in Hlf.
  - rewrite join_cons_cons. cbn [app].
    apply Forall_cons in Hlf as [Hx Hlf]. apply Forall_cons in Hcr as [Hx' Hcr].
    rewrite split_lines_app_LF by done. by rewrite IH.
Qed.

Lemma extend_Forall (P : jsstring → Prop) c pieces :
  pieces ≠ [] →
  (∀ x, P x → P (c :: x)) → Forall P pieces → Forall P (extend c pieces).
Proof.
  intros Hne Hc HP. destruct pieces as [|x r]; [done|].
  apply Forall_cons in HP as [? ?]. simpl. apply Forall_cons; auto.
Qed.

Lemma split_lines_no_LF s : Forall (λ x, LF ∉ x) (split_lines s).
Proof.
  induction s as [s IH] using (induction_ltof1 _ (@length N)).
  unfold ltof in IH.
  destruct s as [|c s]; [by repeat constructor; apply not_elem_of_nil|].
  cbn [split_lines]. destruct (N.eqb_spec c LF) as [->|Hc].
  { apply Forall_cons; split; [apply not_elem_of_nil|]. apply IH. simpl. lia. }
  assert (Hext : Forall (λ x, LF ∉ x) (extend c (split_lines s))).
  { apply extend_Forall; [apply split_lines_nonempty| |apply IH; simpl; lia].
    intros x Hx. by apply not_elem_of_cons. }
  destruct s as [|d s]; [done|].
  destruct ((c =? CR) && (d =? LF)); [|done].
  apply Forall_cons; split; [apply not_elem_of_nil|]. apply IH. simpl. lia.
Qed.

(** Joining undoes splitting, for a text without CR LF pair. *)
Lemma join_split_lines s :
  hasCRLF s = false → join [LF] (split_lines s) = s.
Proof.
  induction s as [|c s IH]; intros H; [done|].
  cbn [split_lines]. destruct (N.eqb_spec c LF) as [->|Hc].
  - assert (Hs : hasCRLF s = false).
    { destruct s as [|d s]; [done|]. cbn [hasCRLF] in H.
      by apply orb_false_iff in H as [_ ?]. }
    specialize (IH Hs). pose proof (split_lines_nonempty s) as Hne.
    destruct (split_lines s) as [|y r] eqn:E; [done|].
    rewrite join_cons_cons, IH. done.
  - destruct s as [|d s]; [done|].
    cbn [hasCRLF] in H. apply orb_false_iff in H as [-> H].
    rewrite join_extend by apply split_lines_nonempty. by rewrite IH.
Qed.

Lemma replace_backslash path :
  replace [BACKSLASH] [SLASH] path = rewriteFirstSeparator path.
Proof.
  induction path as [|c p IH]; [done|].
  cbn [replace startsWith rewriteFirstSeparator].
  rewrite (N.eqb_sym BACKSLASH c).
  destruct (c =? BACKSLASH); simpl.
  - by rewrite drop_0.
  - by rewrite IH.
Qed.

Lemma rewriteFirstSeparator_spec path :
  ((BACKSLASH ∉ path) ∧ rewriteFirstSeparator path = path)
  ∨ (∃ pre post, path = pre ++ BACKSLASH :: post ∧ (BACKSLASH ∉ pre)
                 ∧ rewriteFirstSeparator path = pre ++ SLASH :: post).
Proof.
  induction path as [|c p IH]; [left; split; [apply not_elem_of_nil|done]|].
  cbn [rewriteFirstSeparator]. destruct (N.eqb_spec c BACKSLASH) as [->|Hc].
  - right. exists [], p. split; [done|]. split; [apply not_elem_of_nil|done].
  - destruct IH as [[Hn ->]|(pre & post & -> & Hn & ->)].
    + left. split; [by apply not_elem_of_cons|done].
    + right. exists (c :: pre), post.
      split; [done|]. split; [by apply not_elem_of_cons|done].
Qed.

Lemma keeps_ret {A} (a : A) : keeps (mret a).
Proof. done. Qed.

Lemma keeps_throw {A} e : keeps (@throw A e).
Proof. done. Qed.

Lemma keeps_bind {A B} (m : Exec A) (k : A → Exec B) :
  keeps m → (∀ a, keeps (k a)) → keeps (m ≫= k).
Proof.
  intros Hm Hk w. unfold mbind, Exec_bind.
  destruct (Hm w) as [Hf Hi]. destruct (m w) as [[a|e] w1]; simpl in *.
  - destruct (Hk a w1) as [-> ->]. done.
  - done.
Qed.

Lemma keeps_cli_log msg : keeps (cli_log msg).
Proof. done. Qed.

Lemma keeps_readFileSync p : keeps (readFileSync p).
Proof. intros w. unfold readFileSync. by destruct (files w !! p). Qed.

Lemma keeps_writeFileSync p c : keeps (writeFileSync p c).
Proof. done. Qed.

Lemma keeps_existsSync p : keeps (existsSync p).
Proof. done. Qed.

Lemma keeps_attempt r : keeps (attempt r).
Proof. by destruct r. Qed.

Lemma keeps_when b m : keeps m → keeps (when b m).
Proof. by destruct b. Qed.

Lemma keeps_spawn host c a d : keeps (spawn host c a d).
Proof. done. Qed.

Create HintDb frame.
#[local] Hint Resolve keeps_ret keeps_throw keeps_cli_log keeps_readFileSync
  keeps_writeFileSync keeps_existsSync keeps_attempt keeps_when keeps_spawn
  : frame.

Ltac frame_step :=
  match goal with
  | |- keeps (_ ≫= _) => apply keeps_bind; [|intros]
  | |- keeps (when _ _) => apply keeps_when
  | |- keeps (if ?b then _ else _) => destruct b
  | |- keeps (match ?x with _ => _ end) => destruct x
  | |- keeps _ => solve [auto with frame]
  end.

Lemma keeps_generateRequirementsFile source target opts :
  keeps (generateRequirementsFile source target opts).
Proof. unfold generateRequirementsFile. repeat frame_step. Qed.

Lemma keeps_executeCommand host c sp opts sh :
  keeps (executeCommand host c sp opts sh).
Proof. unfold executeCommand. repeat frame_step. Qed.

Lemma keeps_runPostInstallScript host c a t sp opts :
  keeps (runPostInstallScript host c a t sp opts).
Proof. apply keeps_executeCommand. Qed.

Lemma keeps_copyVendors host v t : keeps (copyVendors host v t).
Proof. unfold copyVendors. repeat frame_step. Qed.

#[local] Hint Resolve keeps_generateRequirementsFile keeps_executeCommand
  keeps_runPostInstallScript keeps_copyVendors : frame.

(** ** The manifest filter *)

Lemma generateRequirementsFile_run source target opts w content :
  files w !! source = Some content →
  generateRequirementsFile source target opts w =
    (Ok (), {| files := <[target := filterManifest (noDeploySet opts) content]> (files w);
               functions := functions w; logged := logged w;
               spawned := spawned w; installs := installs w |}).
Proof.
  intros H. unfold generateRequirementsFile, mbind, Exec_bind, readFileSync.
  rewrite H. done.
Qed.

Lemma kept_lines_spec (opts : Options.t) (lines : list jsstring) :
  filter (λ req, requirementName req ∉ noDeploySet opts) lines
  = filter (λ line, leadingPackageName line ∉ default [] (Options.noDeploy opts))
      lines.
Proof.
  apply list_filter_iff. intros line. rewrite requirementName_spec.
  unfold noDeploySet. by rewrite elem_of_list_to_set.
Qed.

(** C1: for every manifest (read as a sequence of lines) and denied set,
    [generateRequirementsFile] writes exactly those lines whose leading
    package name (the substring before the first of [= < > space tab],
    trimmed) is not a member of the denied names, compared exactly, in
    their original relative order. *)
Theorem filter_retains_exactly (source target : jsstring) (opts : Options.t)
    (w : World) (content : jsstring) :
  files w !! source = Some content →
  let denied := default [] (Options.noDeploy opts) in
  let kept :=
    filter (λ line, leadingPackageName line ∉ denied) (split_lines content) in
  generateRequirementsFile source target opts w =
    (Ok (), {| files := <[target := join [LF] kept]> (files w);
               functions := functions w; logged := logged w;
               spawned := spawned w; installs := installs w |})
  ∧ kept `sublist_of` split_lines content
  ∧ ∀ line, line ∈ kept ↔
            line ∈ split_lines content ∧ leadingPackageName line ∉ denied.
Proof.
  intros H denied kept. split; [|split].
  - rewrite (generateRequirementsFile_run _ _ _ _ _ H).
    unfold filterManifest. by rewrite kept_lines_spec.
  - apply sublist_filter.
  - intros line. unfold kept. rewrite list_elem_of_filter. tauto.
Qed.

Lemma filter_retains_exactly_witness :
  files (exampleWorld [(lit "requirements.txt", exampleManifest)] [])
    !! lit "requirements.txt" = Some exampleManifest
  ∧ generateRequirementsFile (lit "requirements.txt")
      (lit ".serverless/requirements.txt") (exampleOptions false [lit "boto3"])
      (exampleWorld [(lit "requirements.txt", exampleManifest)] [])
    = (Ok (),
       exampleWorld
         [(lit ".serverless/requirements.txt",
           join [LF] [lit "numpy==1.2.3"; lit "simplejson>=3.0"]);
          (lit "requirements.txt", exampleManifest)] []).
Proof.
  split; [by vm_compute|].
  pose proof (filter_retains_exactly (lit "requirements.txt")
                (lit ".serverless/requirements.txt")
                (exampleOptions false [lit "boto3"])
                (exampleWorld [(lit "requirements.txt", exampleManifest)] [])
                exampleManifest) as H.
  destruct H as [H _]; [by vm_compute|].
  rewrite H. reflexivity.
Defined.

(** C6 as stated fails: a manifest with a CR LF terminator is not
    re-emitted unchanged although no line is filtered out; the
    terminator is rewritten to a bare line feed. *)
Lemma crlf_terminator_not_preserved :
  let content := lit "numpy==1.2.3" ++ [CR; LF] ++ lit "six" in
  let opts := exampleOptions false [] in
  let w := exampleWorld [(lit "requirements.txt", content)] [] in
  filter (λ req, requirementName req ∉ noDeploySet opts) (split_lines content)
    = split_lines content
  ∧ (generateRequirementsFile (lit "requirements.txt") (lit "out.txt") opts w).1
    = Ok ()
  ∧ files (generateRequirementsFile (lit "requirements.txt") (lit "out.txt")
             opts w).2 !! lit "out.txt"
    = Some (lit "numpy==1.2.3" ++ [LF] ++ lit "six")
  ∧ files (generateRequirementsFile (lit "requirements.txt") (lit "out.txt")
             opts w).2 !! lit "out.txt"
    ≠ Some content.
Proof. vm_compute. repeat split; congruence. Qed.

(** C6, amended: the surviving lines are re-emitted with their text
    unchanged (leading and trailing whitespace included) and in order,
    joined by single line feeds; for a source whose terminators are bare
    line feeds (no CR LF pair) the source is its lines joined by line
    feeds, so the destination is the source with the filtered-out lines
    removed and nothing else changed. *)
Theorem surviving_lines_reemitted (source target : jsstring)
    (opts : Options.t) (w : World) (content : jsstring) :
  files w !! source = Some content →
  let lines := split_lines content in
  let kept := filter (λ req, requirementName req ∉ noDeploySet opts) lines in
  generateRequirementsFile source target opts w =
    (Ok (), {| files := <[target := join [LF] kept]> (files w);
               functions := functions w; logged := logged w;
               spawned := spawned w; installs := installs w |})
  ∧ kept `sublist_of` lines
  ∧ (hasCRLF content = false → content = join [LF] lines).
Proof.
  intros H lines kept. split; [|split].
  - by rewrite (generateRequirementsFile_run _ _ _ _ _ H).
  - apply sublist_filter.
  - intros Hcr. symmetry. by apply join_split_lines.
Qed.

Lemma surviving_lines_reemitted_witness :
  files (exampleWorld [(lit "requirements.txt", exampleManifest)] [])
    !! lit "requirements.txt" = Some exampleManifest
  ∧ exampleManifest = join [LF] (split_lines exampleManifest).
Proof.
  split; [by vm_compute|].
  pose proof (surviving_lines_reemitted (lit "requirements.txt")
                (lit ".serverless/requirements.txt")
                (exampleOptions false [lit "boto3"])
                (exampleWorld [(lit "requirements.txt", exampleManifest)] [])
                exampleManifest) as H.
  destruct H as (_ & _ & H); [by vm_compute|].
  apply H. by vm_compute.
Defined.

(** C8 as stated fails: a line ending in a stray carriage return, given
    a line feed by the first pass, loses that carriage return in the
    second pass. *)
Lemma filter_not_idempotent :
  let content := lit "six" ++ [CR; CR; LF] ++ lit "numpy" in
  filterManifest ∅ (filterManifest ∅ content) ≠ filterManifest ∅ content.
Proof. vm_compute. congruence. Qed.

Lemma Forall_filter_keep {A} (P Q : A → Prop) `{∀ x, Decision (Q x)} (l : list A) :
  Forall P l → Forall P (filter Q l).
Proof.
  rewrite !Forall_forall. intros HP x Hx.
  apply list_elem_of_filter in Hx as [_ Hx]. auto.
Qed.

Lemma filterManifest_idempotent (noDeploy : gset jsstring) (content : jsstring) :
  Forall (λ line, last line ≠ Some CR) (split_lines content) →
  filterManifest noDeploy (filterManifest noDeploy content)
  = filterManifest noDeploy content.
Proof.
  intros Hcr. unfold filterManifest.
  set (P := λ req, requirementName req ∉ noDeploy).
  remember (filter P (split_lines content)) as kept eqn:Ek.
  destruct (decide (kept = [])) as [->|Hne].
  - cbn [join split_lines]. rewrite filter_cons, filter_nil.
    by destruct (decide (P [])).
  - rewrite split_lines_join; [| done | |].
    + rewrite Ek, list_filter_filter.
      f_equal. apply list_filter_iff. tauto.
    + rewrite Ek. apply Forall_filter_keep, split_lines_no_LF.
    + rewrite Ek. by apply Forall_filter_keep.
Qed.

(** C8, amended: for every manifest none of whose lines (as split by
    the filter) ends in a carriage return, and every denied set,
    filtering the filtered manifest again is a no-op: the second pass
    writes back the text it read. *)
Theorem filter_idempotent (source target : jsstring) (opts : Options.t)
    (w : World) (content : jsstring) :
  files w !! source = Some content →
  Forall (λ line, last line ≠ Some CR) (split_lines content) →
  ∃ w1,
    generateRequirementsFile source target opts w = (Ok (), w1)
    ∧ generateRequirementsFile target target opts w1 = (Ok (), w1).
Proof.
  intros H Hcr. eexists. split.
  - by apply generateRequirementsFile_run.
  - erewrite generateRequirementsFile_run; [|cbn; apply lookup_insert_eq].
    cbn. rewrite filterManifest_idempotent by done.
    by rewrite insert_insert_eq.
Qed.

Lemma filter_idempotent_witness :
  files (exampleWorld [(lit "requirements.txt", exampleManifest)] [])
    !! lit "requirements.txt" = Some exampleManifest
  ∧ Forall (λ line, last line ≠ Some CR) (split_lines exampleManifest)
  ∧ ∃ w1,
      generateRequirementsFile (lit "requirements.txt") (lit "out.txt")
        (exampleOptions false [lit "boto3"])
        (exampleWorld [(lit "requirements.txt", exampleManifest)] [])
      = (Ok (), w1)
      ∧ generateRequirementsFile (lit "out.txt") (lit "out.txt")
          (exampleOptions false [lit "boto3"]) w1
        = (Ok (), w1).
Proof.
  assert (Hcr : Forall (λ line, last line ≠ Some CR) (split_lines exampleManifest)).
  { vm_compute. repeat constructor; congruence. }
  split; [by vm_compute|]. split; [exact Hcr|].
  apply (filter_idempotent (lit "requirements.txt") (lit "out.txt")
           (exampleOptions false [lit "boto3"])
           (exampleWorld [(lit "requirements.txt", exampleManifest)] [])
           exampleManifest); [by vm_compute|exact Hcr].
Defined.

(** ** Path translation *)

(** C5: [dockerPathForWin] returns the path unchanged unless the host
    uses the backslash separator (win32) and container mode is on; then
    it returns the path with its first backslash turned into [/] and
    every later one left as it is. *)
Theorem dockerPathForWin_first_separator (pf : Platform) (opts : Options.t)
    (p : jsstring) :
  ∃ translated,
    dockerPathForWin pf opts p =
      (if bool_decide (pf = win32) && Options.dockerizePip opts
       then translated else p)
    ∧ (((BACKSLASH ∉ p) ∧ translated = p)
       ∨ (∃ pre post, p = pre ++ BACKSLASH :: post ∧ (BACKSLASH ∉ pre)
                      ∧ translated = pre ++ SLASH :: post)).
Proof.
  exists (rewriteFirstSeparator p). split.
  - unfold dockerPathForWin. by rewrite replace_backslash.
  - apply rewriteFirstSeparator_spec.
Qed.

Example dockerPathForWin_example :
  dockerPathForWin win32 (exampleOptions true []) (lit "C:\proj\reqs.txt")
  = lit "C:/proj\reqs.txt"
  ∧ dockerPathForWin win32 (exampleOptions false []) (lit "C:\proj\reqs.txt")
    = lit "C:\proj\reqs.txt"
  ∧ dockerPathForWin linux (exampleOptions true []) (lit "C:\proj\reqs.txt")
    = lit "C:\proj\reqs.txt".
Proof. by vm_compute. Qed.

(** ** Command execution *)

Ltac exec_unfold :=
  unfold mbind, Exec_bind, mret, Exec_ret, cli_log, spawn, when, throw.

(** Every run of [executeCommand] starts exactly one child process,
    unless in native mode the command is empty; its outcome is decided
    by what [spawnSync] returns. *)
Lemma executeCommand_cases host c sp opts sh w :
  (∃ call,
      spawned (executeCommand host c sp opts sh w).2 = spawned w ++ [call]
      ∧ call = {| cmd := if Options.dockerizePip opts then lit "docker"
                         else toString (c !! 0%nat);
                  args := if Options.dockerizePip opts
                          then dockerOptions host c sp opts sh (imageOf host opts)
                          else drop 1 c;
                  cwd := sp |}
      ∧ (executeCommand host c sp opts sh w).1 =
          match error (spawnSync host (spawned w) call) with
          | Some e =>
              if bool_decide (code e = Some (lit "ENOENT")) then
                if Options.dockerizePip opts then
                  Throw (newError (lit "docker not found! Please install it."))
                else
                  Throw (newError (Options.pythonBin opts
                                     ++ lit " not found! Try the pythonBin option."))
              else Throw e
          | None =>
              if bool_decide (status (spawnSync host (spawned w) call) ≠ Some 0%Z)
              then Throw (newError (stderr (spawnSync host (spawned w) call)))
              else Ok ()
          end)
  ∨ (Options.dockerizePip opts = false ∧ c = []
     ∧ spawned (executeCommand host c sp opts sh w).2 = spawned w
     ∧ (executeCommand host c sp opts sh w).1 = Throw typeError).
Proof.
  unfold executeCommand, imageOf. exec_unfold.
  destruct (Options.dockerizePip opts) eqn:Hd;
    [destruct (truthy (Options.dockerFile opts))
    |destruct c as [|c0 c]; [right; done|]];
    cbn -[lit dockerOptions join toString];
    match goal with |- context [spawnSync ?h ?s ?k] =>
      destruct (spawnSync h s k) as [[e|] st [out|] err] eqn:Hres end;
    destruct (Options.verbose opts);
    cbn -[lit dockerOptions join toString];
    repeat case_bool_decide;
    cbn -[lit dockerOptions join toString];
    left; (eexists; split; [reflexivity|]; split; [reflexivity|]);
    rewrite Hres; cbn -[lit];
    repeat case_bool_decide; try reflexivity; try done.
Qed.

Lemma spawned_snoc_inv (l : list SpawnCall) (a b : SpawnCall) :
  l ++ [a] = l ++ [b] → a = b.
Proof. intros H. apply app_inv_head in H. congruence. Qed.

Lemma spawned_snoc_ne (l : list SpawnCall) (a : SpawnCall) : l ≠ l ++ [a].
Proof.
  intros H. apply (f_equal length) in H. rewrite length_app in H.
  simpl in H. lia.
Qed.

(** C3: [executeCommand] raises the tool-missing error exactly when the
    child process could not be started ([res.error] is set) and the
    error says the executable was not found (code ENOENT); the message
    then names the configured [pythonBin] and the [pythonBin] option in
    native mode, and tells to install docker in container mode.  Any
    other start failure is thrown as it is; a process that did start
    leads to success or to the nonzero-exit error only. *)
Theorem tool_missing_classification (host : Host) (c : list jsstring)
    (sp : jsstring) (opts : Options.t) (sh : bool) (w : World)
    (call : SpawnCall) :
  spawned (executeCommand host c sp opts sh w).2 = spawned w ++ [call] →
  let res := spawnSync host (spawned w) call in
  (∀ e, error res = Some e →
        (executeCommand host c sp opts sh w).1 =
          Throw (if bool_decide (code e = Some (lit "ENOENT")) then
                   newError (if Options.dockerizePip opts
                             then lit "docker not found! Please install it."
                             else Options.pythonBin opts
                                    ++ lit " not found! Try the pythonBin option.")
                 else e))
  ∧ (error res = None →
     (executeCommand host c sp opts sh w).1 =
       if bool_decide (status res ≠ Some 0%Z)
       then Throw (newError (stderr res)) else Ok ()).
Proof.
  intros Hs res.
  destruct (executeCommand_cases host c sp opts sh w)
    as [(call0 & Hs0 & _ & Hr)|(_ & _ & Hs0 & _)].
  - rewrite Hs0 in Hs. apply spawned_snoc_inv in Hs as ->.
    fold res in Hr. split.
    + intros e He. rewrite Hr, He.
      destruct (bool_decide (code e = Some (lit "ENOENT"))); [|done].
      by destruct (Options.dockerizePip opts).
    + intros He. by rewrite Hr, He.
  - rewrite Hs0 in Hs. by apply spawned_snoc_ne in Hs.
Qed.

Lemma tool_missing_classification_witness :
  let host := posixHost linux 1000 (notStarted enoent) in
  let opts := exampleOptions false [] in
  let w := exampleWorld [] [] in
  let call := {| cmd := lit "python3.6"; args := [lit "-m"; lit "pip"];
                 cwd := lit "/srv" |} in
  spawned (executeCommand host [lit "python3.6"; lit "-m"; lit "pip"]
             (lit "/srv") opts false w).2 = spawned w ++ [call]
  ∧ (executeCommand host [lit "python3.6"; lit "-m"; lit "pip"]
       (lit "/srv") opts false w).1
    = Throw (newError (lit "python3.6 not found! Try the pythonBin option.")).
Proof.
  intros host opts w call.
  assert (Hs : spawned (executeCommand host [lit "python3.6"; lit "-m"; lit "pip"]
                          (lit "/srv") opts false w).2 = spawned w ++ [call])
    by (by vm_compute).
  split; [exact Hs|].
  destruct (tool_missing_classification host _ _ opts false w call Hs) as [H _].
  rewrite (H enoent); by vm_compute.
Defined.

Example tool_missing_in_container :
  (executeCommand (posixHost linux 1000 (notStarted enoent))
     [lit "python3.6"; lit "-m"; lit "pip"] (lit "/srv")
     (exampleOptions true []) false (exampleWorld [] [])).1
  = Throw (newError (lit "docker not found! Please install it.")).
Proof. by vm_compute. Qed.

Example other_start_failure_propagated :
  (executeCommand (posixHost linux 1000 (notStarted eacces))
     [lit "python3.6"; lit "-m"; lit "pip"] (lit "/srv")
     (exampleOptions true []) false (exampleWorld [] [])).1
  = Throw eacces.
Proof. by vm_compute. Qed.

(** C4: whenever the child process starts ([res.error] unset) and its
    exit status is not 0, [executeCommand] raises an error whose
    message is the captured standard error, verbatim. *)
Theorem nonzero_exit_raises_stderr (host : Host) (c : list jsstring)
    (sp : jsstring) (opts : Options.t) (sh : bool) (w : World)
    (call : SpawnCall) :
  spawned (executeCommand host c sp opts sh w).2 = spawned w ++ [call] →
  error (spawnSync host (spawned w) call) = None →
  status (spawnSync host (spawned w) call) ≠ Some 0%Z →
  (executeCommand host c sp opts sh w).1 =
    Throw (newError (stderr (spawnSync host (spawned w) call))).
Proof.
  intros Hs He Hst.
  destruct (executeCommand_cases host c sp opts sh w)
    as [(call0 & Hs0 & _ & Hr)|(_ & _ & Hs0 & _)].
  - rewrite Hs0 in Hs. apply spawned_snoc_inv in Hs as ->.
    rewrite Hr, He. by rewrite bool_decide_eq_true_2.
  - rewrite Hs0 in Hs. by apply spawned_snoc_ne in Hs.
Qed.

(** A command exiting with status 1 and standard error ["conflict"]
    yields an error whose message is ["conflict"]. *)
Lemma nonzero_exit_raises_stderr_witness :
  let host := posixHost linux 1000 (exited 1 (lit "conflict")) in
  let opts := exampleOptions false [] in
  let w := exampleWorld [] [] in
  let call := {| cmd := lit "python3.6"; args := [lit "-m"; lit "pip"];
                 cwd := lit "/srv" |} in
  spawned (executeCommand host [lit "python3.6"; lit "-m"; lit "pip"]
             (lit "/srv") opts false w).2 = spawned w ++ [call]
  ∧ error (spawnSync host (spawned w) call) = None
  ∧ status (spawnSync host (spawned w) call) ≠ Some 0%Z
  ∧ (executeCommand host [lit "python3.6"; lit "-m"; lit "pip"]
       (lit "/srv") opts false w).1
    = Throw (newError (lit "conflict")).
Proof.
  intros host opts w call.
  split; [by vm_compute|]. split; [by vm_compute|].
  split; [by vm_compute|].
  rewrite (nonzero_exit_raises_stderr host _ _ opts false w call);
    by vm_compute.
Defined.

(** ** Container user mapping *)

Lemma argAfter_skip flag a rest :
  a ≠ flag → argAfter flag (a :: rest) = argAfter flag rest.
Proof. intros H. cbn [argAfter]. by rewrite bool_decide_eq_false_2. Qed.

Lemma argAfter_here flag v rest : argAfter flag (flag :: v :: rest) = Some v.
Proof. cbn [argAfter]. by rewrite bool_decide_eq_true_2. Qed.

Lemma suffixed_ne (x suffix flag : jsstring) :
  (length flag < length suffix)%nat → x ++ suffix ≠ flag.
Proof.
  intros Hl E. apply (f_equal length) in E. rewrite length_app in E. lia.
Qed.

(** The arguments of [docker run]: the mounts, then [-u] and the user
    id, then the image and the invocation. *)
Lemma dockerOptions_shape host c sp opts sh image :
  let uid := if bool_decide (platform host = linux)
             then decimal (getuid host)
             else getDockerUid host (getBindPath host sp) in
  ∃ mounts invocation,
    dockerOptions host c sp opts sh image
    = lit "run" :: lit "--rm" :: mounts ++ [lit "-u"; uid]
        ++ image :: invocation
    ∧ argAfter (lit "-u") (dockerOptions host c sp opts sh image) = Some uid.
Proof.
  intros uid.
  exists ([lit "-v"; getBindPath host sp ++ lit ":/var/task:z"]
            ++ (if Options.dockerSsh opts then
                  [lit "-v";
                   toString (HOME host) ++ lit "/.ssh/id_rsa:/root/.ssh/id_rsa:z";
                   lit "-v";
                   toString (HOME host)
                     ++ lit "/.ssh/known_hosts:/root/.ssh/known_hosts:z";
                   lit "-v";
                   toString (SSH_AUTH_SOCK host) ++ lit ":/tmp/ssh_sock:z";
                   lit "-e"; lit "SSH_AUTH_SOCK=/tmp/ssh_sock"]
                else [])),
         (if sh then
            [lit "/bin/bash"; lit "-c"; lit "'" ++ join (lit " ") c ++ lit "'"]
          else c).
  assert (Hshape :
    dockerOptions host c sp opts sh image
    = lit "run" :: lit "--rm"
        :: ([lit "-v"; getBindPath host sp ++ lit ":/var/task:z"]
              ++ (if Options.dockerSsh opts then
                    [lit "-v";
                     toString (HOME host) ++ lit "/.ssh/id_rsa:/root/.ssh/id_rsa:z";
                     lit "-v";
                     toString (HOME host)
                       ++ lit "/.ssh/known_hosts:/root/.ssh/known_hosts:z";
                     lit "-v";
                     toString (SSH_AUTH_SOCK host) ++ lit ":/tmp/ssh_sock:z";
                     lit "-e"; lit "SSH_AUTH_SOCK=/tmp/ssh_sock"]
                  else []))
        ++ [lit "-u"; uid]
        ++ image :: (if sh then
                       [lit "/bin/bash"; lit "-c";
                        lit "'" ++ join (lit " ") c ++ lit "'"]
                     else c)).
  { unfold dockerOptions, uid.
    destruct (bool_decide (platform host = linux)), (Options.dockerSsh opts), sh;
      cbn [app]; rewrite <- ?app_assoc; reflexivity. }
  split; [exact Hshape|]. rewrite Hshape.
  assert (Hv : lit "-v" ≠ lit "-u") by (by vm_compute).
  assert (He : lit "-e" ≠ lit "-u") by (by vm_compute).
  assert (Hrun : lit "run" ≠ lit "-u") by (by vm_compute).
  assert (Hrm : lit "--rm" ≠ lit "-u") by (by vm_compute).
  assert (Hsock : lit "SSH_AUTH_SOCK=/tmp/ssh_sock" ≠ lit "-u") by (by vm_compute).
  assert (Hsuf : ∀ x suffix : jsstring,
             (2 < length suffix)%nat → x ++ suffix ≠ lit "-u").
  { intros x suffix Hl. apply suffixed_ne. exact Hl. }
  assert (Hl1 : (2 < length (lit ":/var/task:z"))%nat) by (vm_compute; lia).
  assert (Hl2 : (2 < length (lit "/.ssh/id_rsa:/root/.ssh/id_rsa:z"))%nat)
    by (vm_compute; lia).
  assert (Hl3 : (2 < length (lit "/.ssh/known_hosts:/root/.ssh/known_hosts:z"))%nat)
    by (vm_compute; lia).
  assert (Hl4 : (2 < length (lit ":/tmp/ssh_sock:z"))%nat) by (vm_compute; lia).
  destruct (Options.dockerSsh opts); cbn [app];
    repeat (rewrite argAfter_skip by auto);
    apply argAfter_here.
Qed.

(** C7 as stated fails on a POSIX-like host other than Linux: on macOS
    ([darwin]) the container does not run as the invoking user (501
    here) but as the owner reported for the bind mount. *)
Lemma darwin_not_invoking_uid :
  let host := posixHost darwin 501 (exited 0 []) in
  let w' := (executeCommand host [lit "python3.6"; lit "-m"; lit "pip"]
               (lit "/srv") (exampleOptions true []) false
               (exampleWorld [] [])).2 in
  platform host ≠ win32
  ∧ (args <$> spawned w')
    = [[lit "run"; lit "--rm"; lit "-v"; lit "/srv:/var/task:z";
        lit "-u"; lit "0"; lit "lambci/lambda:build-python3.6";
        lit "python3.6"; lit "-m"; lit "pip"]]
  ∧ (argAfter (lit "-u") <$> (args <$> spawned w'))
    ≠ [Some (decimal (getuid host))].
Proof. vm_compute. repeat split; congruence. Qed.

(** C7, amended: in container mode the [docker run] arguments carry a
    [-u <id>] pair before the image; on a Linux host the id is the
    numeric user id of the invoking process, on every other host
    (macOS and other POSIX-like hosts included) it is what
    [getDockerUid] reports for the bind-mounted directory. *)
Theorem container_user_mapping (host : Host) (c : list jsstring)
    (sp : jsstring) (opts : Options.t) (sh : bool) (w : World) :
  Options.dockerizePip opts = true →
  let uid := if bool_decide (platform host = linux)
             then decimal (getuid host)
             else getDockerUid host (getBindPath host sp) in
  ∃ call mounts invocation,
    spawned (executeCommand host c sp opts sh w).2 = spawned w ++ [call]
    ∧ cmd call = lit "docker"
    ∧ args call = lit "run" :: lit "--rm" :: mounts ++ [lit "-u"; uid]
                    ++ imageOf host opts :: invocation
    ∧ argAfter (lit "-u") (args call) = Some uid.
Proof.
  intros Hd uid.
  destruct (executeCommand_cases host c sp opts sh w)
    as [(call & Hs & Hc & _)|(Hn & _)]; [|congruence].
  rewrite Hd in Hc.
  destruct (dockerOptions_shape host c sp opts sh (imageOf host opts))
    as (mounts & invocation & Hshape & Harg).
  exists call, mounts, invocation. subst call. cbn [cmd args]. done.
Qed.

Lemma container_user_mapping_witness :
  let host := posixHost linux 1000 (exited 0 []) in
  Options.dockerizePip (exampleOptions true []) = true
  ∧ ∃ call mounts invocation,
      spawned (executeCommand host [lit "python3.6"; lit "-m"; lit "pip"]
                 (lit "/srv") (exampleOptions true []) false
                 (exampleWorld [] [])).2
      = spawned (exampleWorld [] []) ++ [call]
      ∧ cmd call = lit "docker"
      ∧ args call = lit "run" :: lit "--rm" :: mounts
                      ++ [lit "-u"; lit "1000"]
                      ++ lit "lambci/lambda:build-python3.6" :: invocation
      ∧ argAfter (lit "-u") (args call) = Some (lit "1000").
Proof.
  intros host. split; [reflexivity|].
  exact (container_user_mapping host [lit "python3.6"; lit "-m"; lit "pip"]
           (lit "/srv") (exampleOptions true []) false (exampleWorld [] [])
           eq_refl).
Defined.

(** ** Post-install hook *)

(** C10: for a hook command [c], hook arguments [a] (none when absent)
    and target folder [t], the vector handed to [executeCommand] is [c],
    then the path [path.join(t, 'requirements')], then the elements of
    [a] in order.  In native mode this is the child process started; in
    container mode it is the shell command at the end of [docker run]. *)
Theorem post_install_arguments (host : Host) (command : jsstring)
    (cmdArgs : option (list jsstring)) (targetFolder sp : jsstring)
    (opts : Options.t) (w : World) :
  let folder := path_join host targetFolder (lit "requirements") in
  let vector := command :: folder :: default [] cmdArgs in
  runPostInstallScript host command cmdArgs targetFolder sp opts
  = executeCommand host vector sp opts true
  ∧ ∃ call,
      spawned (runPostInstallScript host command cmdArgs targetFolder sp
                 opts w).2 = spawned w ++ [call]
      ∧ cwd call = sp
      ∧ if Options.dockerizePip opts then
          cmd call = lit "docker"
          ∧ ∃ before,
              args call =
                before ++ [lit "/bin/bash"; lit "-c";
                           lit "'" ++ join (lit " ") vector ++ lit "'"]
        else
          cmd call = command ∧ args call = folder :: default [] cmdArgs.
Proof.
  intros folder vector. split; [reflexivity|].
  change (runPostInstallScript host command cmdArgs targetFolder sp opts)
    with (executeCommand host vector sp opts true).
  destruct (executeCommand_cases host vector sp opts true w)
    as [(call & Hs & Hc & _)|(_ & Hn & _)]; [|done].
  exists call. split; [done|]. subst call. cbn [cmd args cwd].
  split; [done|].
  destruct (Options.dockerizePip opts); [|done].
  split; [done|]. unfold dockerOptions. eexists. reflexivity.
Qed.

Example post_install_native :
  spawned (runPostInstallScript (posixHost linux 1000 (exited 0 []))
             (lit "strip.sh") (Some [lit "--all"; lit "-q"])
             (lit ".serverless/svc2") (lit "/srv") (exampleOptions false [])
             (exampleWorld [] [])).2
  = [{| cmd := lit "strip.sh";
        args := [lit ".serverless/svc2/requirements"; lit "--all"; lit "-q"];
        cwd := lit "/srv" |}].
Proof. by vm_compute. Qed.

Example post_install_without_arguments :
  spawned (runPostInstallScript (posixHost linux 1000 (exited 0 []))
             (lit "strip.sh") None
             (lit ".serverless") (lit "/srv") (exampleOptions true [])
             (exampleWorld [] [])).2
  = [{| cmd := lit "docker";
        args := [lit "run"; lit "--rm"; lit "-v"; lit "/srv:/var/task:z";
                 lit "-u"; lit "1000"; lit "lambci/lambda:build-python3.6";
                 lit "/bin/bash"; lit "-c";
                 lit "'strip.sh .serverless/requirements'"];
        cwd := lit "/srv" |}].
Proof. by vm_compute. Qed.

(** ** Orchestration *)

Lemma hoare_bind {A B} (P : World → Prop) (m : Exec A) (k : A → Exec B)
    (R : Result A → World → Prop) (Q : Result B → World → Prop) :
  hoare P m R →
  (∀ a, hoare (R (Ok a)) (k a) Q) →
  (∀ e w, R (Throw e) w → Q (Throw e) w) →
  hoare P (m ≫= k) Q.
Proof.
  intros Hm Hk He w HP. unfold mbind, Exec_bind.
  specialize (Hm w HP). destruct (m w) as [[a|e] w1]; simpl in *.
  - by apply Hk.
  - by apply He.
Qed.

Lemma hoare_ret {A} (P : World → Prop) (a : A) (Q : Result A → World → Prop) :
  (∀ w, P w → Q (Ok a) w) → hoare P (mret a) Q.
Proof. intros H w HP. by apply H. Qed.

Lemma hoare_keeps {A} (m : Exec A) units0 runs :
  keeps m → hoare (st units0 runs) m (λ _, st units0 runs).
Proof.
  intros Hk w [Hf Hi]. destruct (Hk w) as [Ef Ei]. unfold st.
  by rewrite Ef, Ei.
Qed.

Lemma hoare_noteInstall rp tf units0 runs :
  hoare (st units0 runs) (noteInstall rp tf)
    (λ _, st units0 (runs ++ [(rp, tf)])).
Proof. intros w [Hf Hi]. split; [done|]. cbn. by rewrite Hi. Qed.

(** [installRequirements] leaves the units alone and, when it succeeds,
    has started exactly one installer run. *)
Lemma hoare_installRequirements host rp tf sp opts units0 runs :
  hoare (st units0 runs) (installRequirements host rp tf sp opts)
    (λ r w, match r with
            | Ok _ => st units0 (runs ++ [(rp, tf)]) w
            | Throw _ => st units0 runs w ∨ st units0 (runs ++ [(rp, tf)]) w
            end).
Proof.
  unfold installRequirements.
  eapply hoare_bind; [apply hoare_keeps; auto with frame| |by left].
  intros ?.
  eapply hoare_bind;
    [apply hoare_keeps; destruct (Options.usePipenv opts); auto with frame
    | |by left].
  intros pipfile.
  eapply hoare_bind;
    [apply hoare_keeps; destruct pipfile; auto with frame| |by left].
  intros ?.
  eapply hoare_bind; [apply hoare_keeps; auto with frame| |by left].
  intros ?.
  eapply hoare_bind; [apply hoare_noteInstall| |by right].
  intros ? w Hst.
  match goal with
  | |- context [executeCommand ?h ?c ?s ?o ?b w] =>
      pose proof (hoare_keeps (executeCommand h c s o b) units0 _
                    (keeps_executeCommand h c s o b) w Hst) as H;
      destruct (executeCommand h c s o b w) as [[?|?] ?]
  end; simpl in *; auto.
Qed.

Lemma firstClaims_one seen m :
  firstClaims seen [m] = if bool_decide (m ∈ seen) then [] else [m].
Proof. done. Qed.

Lemma firstClaims_cons seen m ms :
  firstClaims seen (m :: ms)
  = firstClaims seen [m] ++ firstClaims (seen ++ firstClaims seen [m]) ms.
Proof.
  cbn [firstClaims]. case_bool_decide; cbn [app]; [|done].
  by rewrite app_nil_r.
Qed.

Lemma defaulted_refl f : defaulted f f.
Proof. by left. Qed.

Lemma defaulted_moduleId g f : defaulted g f → moduleId f = moduleId g.
Proof.
  intros [->|[Ht ->]]; [done|].
  unfold moduleId. rewrite Ht. done.
Qed.

Lemma defaulted_set_module g f :
  defaulted g f → truthy (Func.module f) = false →
  defaulted g (Func.set_module (lit ".") f).
Proof.
  intros [->|[Ht ->]] Hf; [by right|]. done.
Qed.

(** The outcome of the guarded body and of the whole loop, from a world
    in [st units0 runs]. *)
Lemma hoare_installModule host this f seen units0 runs :
  hoare (st units0 runs) (installModule host this f seen)
    (λ r w,
       match r with
       | Ok seen' =>
           seen' = seen ++ firstClaims seen [toString (Func.module f)]
           ∧ st units0
               (runs ++ (installOf host this
                           <$> firstClaims seen [toString (Func.module f)])) w
       | Throw _ => ∃ runs', st units0 runs' w
       end).
Proof.
  unfold installModule. rewrite firstClaims_one. case_bool_decide.
  - apply hoare_ret. intros w Hst. cbn. by rewrite !app_nil_r.
  - eapply hoare_bind; [apply hoare_installRequirements| |].
    2: { intros e w [Hst|Hst]; eexists; exact Hst. }
    intros ?.
    eapply hoare_bind; [apply hoare_keeps; auto with frame| |].
    2: { intros e w Hst; eexists; exact Hst. }
    intros ?.
    eapply hoare_bind; [apply hoare_keeps; auto with frame| |].
    2: { intros e w Hst; eexists; exact Hst. }
    intros ?. apply hoare_ret. intros w Hst. done.
Qed.

Lemma hoare_perFunction host this seen i g units0 runs :
  units0 !! i = Some g →
  hoare (st units0 runs) (perFunction host this seen i)
    (λ r w,
       match r with
       | Ok seen' =>
           seen' = seen ++ firstClaims seen [moduleId g]
           ∧ st units0
               (runs ++ (installOf host this <$> firstClaims seen [moduleId g])) w
       | Throw _ => ∃ runs', st units0 runs' w
       end).
Proof.
  intros Hg w [HF HI].
  destruct (Forall2_lookup_l _ _ _ _ _ HF Hg) as (f & Hf & Hd).
  pose proof (defaulted_moduleId _ _ Hd) as Hm.
  unfold perFunction, mbind, Exec_bind, readFunction. rewrite Hf.
  destruct (truthy (Func.module f)) eqn:Ht; cbn [negb when].
  - cbn. rewrite Hf.
    assert (E : toString (Func.module f) = moduleId g).
    { rewrite <- Hm. unfold moduleId. by rewrite Ht. }
    rewrite <- E. by apply hoare_installModule.
  - cbn. rewrite list_lookup_alter_eq, Hf. cbn [fmap option_fmap option_map].
    assert (E : toString (Func.module (Func.set_module (lit ".") f)) = moduleId g).
    { rewrite <- Hm. unfold moduleId. by rewrite Ht. }
    rewrite <- E. apply hoare_installModule. split; [|done]. cbn.
    apply Forall2_alter_r; [done|].
    intros x y Hx Hy Hxy. rewrite Hf in Hy. injection Hy as <-.
    by apply defaulted_set_module.
Qed.

Lemma hoare_forEach host this units0 indices ms :
  Forall2 (λ i m, moduleId <$> units0 !! i = Some m) indices ms →
  ∀ seen runs,
    hoare (st units0 runs) (forEach (perFunction host this) seen indices)
      (λ r w,
         match r with
         | Ok seen' =>
             seen' = seen ++ firstClaims seen ms
             ∧ st units0 (runs ++ (installOf host this <$> firstClaims seen ms)) w
         | Throw _ => ∃ runs', st units0 runs' w
         end).
Proof.
  induction 1 as [|i m indices ms Hi _ IH]; intros seen runs.
  - apply hoare_ret. intros w Hst. cbn. by rewrite !app_nil_r.
  - cbn [forEach].
    destruct (units0 !! i) as [g|] eqn:Hg; [|done].
    injection Hi as Hi. subst m.
    eapply hoare_bind; [by apply hoare_perFunction| |done].
    intros seen' w [-> Hst].
    specialize (IH (seen ++ firstClaims seen [moduleId g]) _ w Hst).
    destruct (forEach _ _ _ w) as [[seen''|e] w']; cbn [fst snd] in *; [|done].
    destruct IH as [-> IH]. rewrite (firstClaims_cons seen (moduleId g) ms).
    rewrite fmap_app, !app_assoc. done.
Qed.

Lemma seq_ids (units0 : list Func.t) :
  Forall2 (λ i m, moduleId <$> units0 !! i = Some m)
    (seq 0 (length units0)) (moduleId <$> units0).
Proof.
  apply Forall2_same_length_lookup_2.
  - by rewrite length_seq, length_fmap.
  - intros i x y Hx Hy. apply lookup_seq in Hx as [-> _].
    by rewrite list_lookup_fmap in Hy.
Qed.

Lemma hoare_installAllRequirements host this units0 runs :
  hoare (st units0 runs) (installAllRequirements host this)
    (λ r w,
       match r with
       | Ok _ =>
           if individually this then
             st units0
               (runs ++ (installOf host this
                           <$> firstClaims [] (moduleId <$> units0))) w
           else
             st units0
               (runs ++ [(Options.fileName (options this), lit ".serverless")]) w
       | Throw _ => ∃ runs', st units0 runs' w
       end).
Proof.
  unfold installAllRequirements.
  eapply hoare_bind; [apply hoare_keeps; auto with frame| |].
  2: { intros e w Hst; eexists; exact Hst. }
  intros ?. destruct (individually this).
  - eapply hoare_bind with
      (R := λ r w, r = Ok (length units0) ∧ st units0 runs w).
    + intros w Hst. split; [|done]. cbn. f_equal.
      destruct Hst as [HF _]. symmetry. by apply Forall2_length in HF.
    + intros n.
      eapply hoare_bind with
        (R := λ r w,
           match r with
           | Ok seen' =>
               seen' = [] ++ firstClaims [] (moduleId <$> units0)
               ∧ st units0
                   (runs ++ (installOf host this
                               <$> firstClaims [] (moduleId <$> units0))) w
           | Throw _ => ∃ runs', st units0 runs' w
           end).
      * intros w [[= ->] Hst].
        exact (hoare_forEach host this units0 _ _ (seq_ids units0) [] runs w Hst).
      * intros seen'. apply hoare_ret. by intros w [_ Hst].
      * done.
    + by intros e w [? _].
  - eapply hoare_bind; [apply hoare_installRequirements| |].
    2: { intros e w [Hst|Hst]; eexists; exact Hst. }
    intros ?.
    eapply hoare_bind; [apply hoare_keeps; auto with frame| |].
    2: { intros e w Hst; eexists; exact Hst. }
    intros ? w Hst.
    pose proof (hoare_keeps
                  (when (truthy (Options.pipPostInstallScript (options this)))
                     (runPostInstallScript host
                        (toString (Options.pipPostInstallScript (options this)))
                        (Options.pipPostInstallArgs (options this))
                        (lit ".serverless") (servicePath this) (options this)))
                  units0 _ ltac:(auto with frame) w Hst) as H.
    cbn beta in H.
    destruct (when _ _ w) as [[[]|e] w']; cbn in *; [done|by eexists].
Qed.

Lemma firstClaims_elem seen ids m :
  m ∈ firstClaims seen ids ↔ m ∈ ids ∧ m ∉ seen.
Proof.
  revert seen. induction ids as [|m0 ids IH]; intros seen; cbn [firstClaims].
  - split; [intros H|intros [H _]]; by apply elem_of_nil in H.
  - case_bool_decide as Hm0.
    + rewrite IH, elem_of_cons. split; [tauto|].
      intros [[->|?] ?]; [done|tauto].
    + rewrite !elem_of_cons, IH, not_elem_of_app, list_elem_of_singleton.
      destruct (decide (m = m0)) as [->|Hne]; [tauto|]. tauto.
Qed.

Lemma firstClaims_NoDup seen ids : NoDup (firstClaims seen ids).
Proof.
  revert seen. induction ids as [|m0 ids IH]; intros seen; cbn [firstClaims].
  - constructor.
  - case_bool_decide; [apply IH|]. constructor; [|apply IH].
    rewrite firstClaims_elem, not_elem_of_app, list_elem_of_singleton. tauto.
Qed.

Lemma length_filter_split {A} (P : A → Prop) `{∀ x, Decision (P x)} (l : list A) :
  (length (filter P l) + length (filter (λ x, ¬ P x) l) = length l)%nat.
Proof.
  induction l as [|x l IH]; [done|].
  rewrite !filter_cons. destruct (decide (P x)), (decide (¬ P x)); cbn; try lia.
  - done.
  - tauto.
Qed.

Lemma list_filter_ext_in {A} (P Q : A → Prop) `{∀ x, Decision (P x)}
    `{∀ x, Decision (Q x)} (l : list A) :
  (∀ x, x ∈ l → P x ↔ Q x) → filter P l = filter Q l.
Proof.
  induction l as [|x l IH]; intros Hext; [done|].
  rewrite !filter_cons.
  assert (Hx : P x ↔ Q x) by (apply Hext, elem_of_cons; by left).
  rewrite IH by (intros y Hy; apply Hext, elem_of_cons; by right).
  destruct (decide (P x)), (decide (Q x)); tauto || done.
Qed.

(** With pairwise-distinct identifiers apart from ["."], the number of
    claims is one for ["."] (if present and not yet seen) plus the
    number of other identifiers not yet seen. *)
Lemma firstClaims_length seen ids :
  NoDup (filter (λ m, m ≠ lit ".") ids) →
  length (firstClaims seen ids)
  = ((if bool_decide (lit "." ∈ seen) then 0
      else if bool_decide (lit "." ∈ ids) then 1 else 0)
     + length (filter (λ m, m ≠ lit "." ∧ m ∉ seen) ids))%nat.
Proof.
  revert seen. induction ids as [|m ids IH]; intros seen Hnd.
  - cbn. rewrite (bool_decide_eq_false_2 (lit "." ∈ [])) by apply not_elem_of_nil.
    by destruct (bool_decide (lit "." ∈ seen)).
  - cbn [firstClaims]. rewrite filter_cons in Hnd. rewrite filter_cons.
    destruct (decide (m = lit ".")) as [->|Hm].
    + rewrite decide_False in Hnd by tauto.
      rewrite decide_False by tauto.
      rewrite (bool_decide_eq_true_2 (lit "." ∈ lit "." :: ids))
        by (apply elem_of_cons; by left).
      destruct (decide (lit "." ∈ seen)) as [Hs|Hs].
      * rewrite !(bool_decide_eq_true_2 _ Hs). rewrite IH by done.
        by rewrite (bool_decide_eq_true_2 _ Hs).
      * rewrite !(bool_decide_eq_false_2 _ Hs). cbn [length].
        rewrite IH by done.
        rewrite (bool_decide_eq_true_2 (lit "." ∈ seen ++ [lit "."]))
          by (apply elem_of_app; right; by apply list_elem_of_singleton).
        cbn. f_equal. f_equal. apply list_filter_iff. intros x.
        rewrite not_elem_of_app, list_elem_of_singleton. tauto.
    + rewrite decide_True in Hnd by done. apply NoDup_cons in Hnd as [Hin Hnd].
      assert (Hids : m ∉ ids).
      { intros ?. apply Hin. by apply list_elem_of_filter. }
      assert (Hdot : bool_decide (lit "." ∈ m :: ids) = bool_decide (lit "." ∈ ids)).
      { apply bool_decide_ext. rewrite elem_of_cons.
        split; [intros [E|?]; [by destruct Hm|done]|by right]. }
      rewrite Hdot.
      destruct (decide (m ∈ seen)) as [Hs|Hs].
      * rewrite (bool_decide_eq_true_2 _ Hs).
        rewrite decide_False by tauto. by rewrite IH.
      * rewrite (bool_decide_eq_false_2 _ Hs).
        rewrite decide_True by done. cbn [length]. rewrite IH by done.
        assert (Hseen : bool_decide (lit "." ∈ seen ++ [m])
                        = bool_decide (lit "." ∈ seen)).
        { apply bool_decide_ext.
          rewrite elem_of_app, list_elem_of_singleton.
          split; [intros [?|E]; [done|by destruct Hm]|by left]. }
        rewrite Hseen.
        assert (Hf : filter (λ x, x ≠ lit "." ∧ x ∉ seen ++ [m]) ids
                     = filter (λ x, x ≠ lit "." ∧ x ∉ seen) ids).
        { apply list_filter_ext_in. intros x Hx.
          rewrite not_elem_of_app, list_elem_of_singleton.
          split; [tauto|]. intros [? ?]. repeat split; try done.
          intros ->. done. }
        rewrite Hf. lia.
Qed.

(** ** Mutation of the deployment units *)

(** C9 as stated fails: a unit whose [module] is unset has it set to
    ["."] by the run, on the unit object itself. *)
Lemma unset_module_is_written :
  let host := posixHost linux 1000 (exited 0 []) in
  let w := exampleWorld [(lit "requirements.txt", exampleManifest)]
             [unit_ None] in
  (installAllRequirements host (examplePlugin true) w).1 = Ok ()
  ∧ functions (installAllRequirements host (examplePlugin true) w).2
    = [unit_ (Some (lit "."))]
  ∧ functions (installAllRequirements host (examplePlugin true) w).2
    ≠ functions w.
Proof. vm_compute. repeat split; congruence. Qed.

Lemma keepsUnits_of_keeps {A} (m : Exec A) : keeps m → keepsUnits m.
Proof. intros H w. by destruct (H w). Qed.

Lemma keepsUnits_bind {A B} (m : Exec A) (k : A → Exec B) :
  keepsUnits m → (∀ a, keepsUnits (k a)) → keepsUnits (m ≫= k).
Proof.
  intros Hm Hk w. unfold mbind, Exec_bind.
  specialize (Hm w). destruct (m w) as [[a|e] w1]; simpl in *.
  - by rewrite Hk.
  - done.
Qed.

Lemma keepsUnits_noteInstall rp tf : keepsUnits (noteInstall rp tf).
Proof. done. Qed.

Lemma keepsUnits_installRequirements host rp tf sp opts :
  keepsUnits (installRequirements host rp tf sp opts).
Proof.
  unfold installRequirements.
  repeat first
    [ apply keepsUnits_noteInstall
    | apply keepsUnits_bind; [|intros]
    | apply keepsUnits_of_keeps; repeat frame_step ].
Qed.

(** Single-pass mode never touches the function objects. *)
Lemma single_pass_keeps_units host this :
  individually this = false → keepsUnits (installAllRequirements host this).
Proof.
  intros Hind. unfold installAllRequirements. rewrite Hind.
  repeat first
    [ apply keepsUnits_installRequirements
    | apply keepsUnits_bind; [|intros]
    | apply keepsUnits_of_keeps; repeat frame_step ].
Qed.

(** C9, amended: whatever the outcome of the run, it leaves every
    unit's vendor directory and post-install hook settings as they
    were, and leaves a module identifier that is set as it was; the one
    thing it may change is an unset (or empty) module identifier, which
    per-unit mode sets to ["."] on the unit itself.  Single-pass mode
    changes no unit at all. *)
Theorem units_changed_only_by_defaulting (host : Host) (this : Plugin)
    (w : World) :
  Forall2
    (λ before after,
       defaulted before after
       ∧ Func.vendor after = Func.vendor before
       ∧ Func.pipPostInstallScript after = Func.pipPostInstallScript before
       ∧ Func.pipPostInstallArgs after = Func.pipPostInstallArgs before
       ∧ (truthy (Func.module before) = true → after = before)
       ∧ (Func.module after = Func.module before
          ∨ Func.module after = Some (lit ".")))
    (functions w) (functions (installAllRequirements host this w).2)
  ∧ (individually this = false →
     functions (installAllRequirements host this w).2 = functions w).
Proof.
  split; [|intros Hind; by apply single_pass_keeps_units].
  assert (Hst : st (functions w) (installs w) w).
  { split; [|done]. apply Forall_Forall2_diag, Forall_forall.
    intros f _. apply defaulted_refl. }
  pose proof (hoare_installAllRequirements host this _ _ w Hst) as H.
  cbn beta in H.
  assert (HF : Forall2 defaulted (functions w)
                 (functions (installAllRequirements host this w).2)).
  { destruct ((installAllRequirements host this w).1).
    - destruct (individually this); by destruct H.
    - by destruct H as [runs' [? _]]. }
  eapply Forall2_impl; [exact HF|].
  intros before after Hd. split; [done|].
  destruct Hd as [->|[Ht ->]].
  - repeat split; auto.
  - repeat split; cbn; auto. intros Ht'. congruence.
Qed.

(** * Further properties of lib/pip.js *)

(** ** generateRequirementsFile: errors, copies, composition *)

(** A source manifest that cannot be read makes
    [generateRequirementsFile] throw the ENOENT error of the read; the
    target is neither created nor rewritten and nothing else changes. *)
Theorem missing_source_leaves_target (source target : jsstring)
    (opts : Options.t) (w : World) :
  files w !! source = None →
  ∃ e, generateRequirementsFile source target opts w = (Throw e, w)
       ∧ code e = Some (lit "ENOENT").
Proof.
  intros H. unfold generateRequirementsFile, mbind, Exec_bind, readFileSync.
  rewrite H. eexists. split; reflexivity.
Qed.

Lemma missing_source_leaves_target_witness :
  files (exampleWorld [] []) !! lit "requirements.txt" = None
  ∧ ∃ e, generateRequirementsFile (lit "requirements.txt") (lit "out.txt")
           (exampleOptions false []) (exampleWorld [] [])
         = (Throw e, exampleWorld [] [])
         ∧ code e = Some (lit "ENOENT").
Proof.
  split; [by vm_compute|].
  apply (missing_source_leaves_target (lit "requirements.txt") (lit "out.txt")
           (exampleOptions false []) (exampleWorld [] [])).
  by vm_compute.
Defined.

Lemma filter_all {A} (P : A → Prop) `{∀ x, Decision (P x)} (l : list A) :
  Forall P l → filter P l = l.
Proof.
  induction 1 as [|x l Hx _ IH]; [done|].
  by rewrite filter_cons_True, IH.
Qed.

(** With no denied name ([noDeploy] absent or empty) and a source whose
    terminators are bare line feeds, the target receives the source
    text verbatim. *)
Theorem no_denied_copies_verbatim (source target : jsstring)
    (opts : Options.t) (w : World) (content : jsstring) :
  files w !! source = Some content →
  hasCRLF content = false →
  default [] (Options.noDeploy opts) = [] →
  generateRequirementsFile source target opts w =
    (Ok (), {| files := <[target := content]> (files w);
               functions := functions w; logged := logged w;
               spawned := spawned w; installs := installs w |}).
Proof.
  intros H Hcr Hnone. rewrite (generateRequirementsFile_run _ _ _ _ _ H).
  unfold filterManifest, noDeploySet. rewrite Hnone.
  rewrite filter_all.
  - by rewrite join_split_lines.
  - apply Forall_forall. intros line _. cbn. apply not_elem_of_empty.
Qed.

Lemma no_denied_copies_verbatim_witness :
  files (exampleWorld [(lit "requirements.txt", exampleManifest)] [])
    !! lit "requirements.txt" = Some exampleManifest
  ∧ hasCRLF exampleManifest = false
  ∧ default [] (Options.noDeploy (exampleOptions false [])) = []
  ∧ generateRequirementsFile (lit "requirements.txt") (lit "out.txt")
      (exampleOptions false [])
      (exampleWorld [(lit "requirements.txt", exampleManifest)] [])
    = (Ok (),
       exampleWorld [(lit "out.txt", exampleManifest);
                     (lit "requirements.txt", exampleManifest)] []).
Proof.
  split; [by vm_compute|]. split; [by vm_compute|]. split; [reflexivity|].
  rewrite (no_denied_copies_verbatim (lit "requirements.txt") (lit "out.txt")
             (exampleOptions false [])
             (exampleWorld [(lit "requirements.txt", exampleManifest)] [])
             exampleManifest); by vm_compute.
Defined.

Lemma filterManifest_compose (D1 D2 : gset jsstring) (content : jsstring) :
  Forall (λ line, last line ≠ Some CR) (split_lines content) →
  filterManifest D2 (filterManifest D1 content)
  = filterManifest (D1 ∪ D2) content.
Proof.
  intros Hcr. unfold filterManifest.
  assert (E : filter (λ req, requirementName req ∉ D1 ∪ D2) (split_lines content)
              = filter (λ req, requirementName req ∉ D2)
                  (filter (λ req, requirementName req ∉ D1) (split_lines content))).
  { rewrite list_filter_filter. apply list_filter_iff. intros x.
    rewrite not_elem_of_union. tauto. }
  rewrite E.
  remember (filter (λ req, requirementName req ∉ D1) (split_lines content))
    as kept eqn:Ek.
  destruct (decide (kept = [])) as [->|Hne].
  - cbn [join split_lines]. rewrite filter_cons, !filter_nil.
    by destruct (decide (requirementName [] ∉ D2)).
  - rewrite split_lines_join; [done|done| |].
    + rewrite Ek. apply Forall_filter_keep, split_lines_no_LF.
    + rewrite Ek. by apply Forall_filter_keep.
Qed.

(** Filtering composes: for a manifest none of whose lines ends in a
    carriage return, filtering with one denied list and then filtering
    the result in place with a second one leaves what a single pass
    with both lists together writes. *)
Theorem filter_passes_compose (source target : jsstring)
    (opts1 opts2 opts12 : Options.t) (w : World) (content : jsstring) :
  files w !! source = Some content →
  Forall (λ line, last line ≠ Some CR) (split_lines content) →
  default [] (Options.noDeploy opts12)
  = default [] (Options.noDeploy opts1) ++ default [] (Options.noDeploy opts2) →
  ∃ w1 w2,
    generateRequirementsFile source target opts1 w = (Ok (), w1)
    ∧ generateRequirementsFile target target opts2 w1 = (Ok (), w2)
    ∧ generateRequirementsFile source target opts12 w = (Ok (), w2).
Proof.
  intros H Hcr H12. eexists _, _. split; [|split].
  - by apply generateRequirementsFile_run.
  - apply generateRequirementsFile_run. cbn. apply lookup_insert_eq.
  - rewrite (generateRequirementsFile_run _ _ _ _ _ H). cbn.
    rewrite insert_insert_eq, filterManifest_compose by done.
    do 3 f_equal. unfold noDeploySet. rewrite H12.
    by rewrite list_to_set_app_L.
Qed.

Lemma filter_passes_compose_witness :
  let w := exampleWorld [(lit "requirements.txt", exampleManifest)] [] in
  files w !! lit "requirements.txt" = Some exampleManifest
  ∧ Forall (λ line, last line ≠ Some CR) (split_lines exampleManifest)
  ∧ ∃ w1 w2,
      generateRequirementsFile (lit "requirements.txt") (lit "out.txt")
        (exampleOptions false [lit "boto3"]) w = (Ok (), w1)
      ∧ generateRequirementsFile (lit "out.txt") (lit "out.txt")
          (exampleOptions false [lit "numpy"]) w1 = (Ok (), w2)
      ∧ generateRequirementsFile (lit "requirements.txt") (lit "out.txt")
          (exampleOptions false [lit "boto3"; lit "numpy"]) w = (Ok (), w2).
Proof.
  intros w.
  assert (Hcr : Forall (λ line, last line ≠ Some CR) (split_lines exampleManifest)).
  { vm_compute. repeat constructor; congruence. }
  split; [by vm_compute|]. split; [exact Hcr|].
  apply (filter_passes_compose (lit "requirements.txt") (lit "out.txt")
           (exampleOptions false [lit "boto3"])
           (exampleOptions false [lit "numpy"])
           (exampleOptions false [lit "boto3"; lit "numpy"])
           w exampleManifest); [by vm_compute|exact Hcr|reflexivity].
Defined.

Lemma beforeFirstDelimiter_app n d rest :
  Forall (λ c, isDelimiter c = false) n → isDelimiter d = true →
  beforeFirstDelimiter (n ++ d :: rest) = n.
Proof.
  intros Hn Hd. induction Hn as [|c n Hc _ IH]; cbn [app beforeFirstDelimiter].
  - by rewrite <- isDelimiter_spec, Hd.
  - by rewrite <- isDelimiter_spec, Hc, IH.
Qed.

Lemma beforeFirstDelimiter_whole n :
  Forall (λ c, isDelimiter c = false) n → beforeFirstDelimiter n = n.
Proof.
  induction 1 as [|c n Hc _ IH]; cbn [beforeFirstDelimiter]; [done|].
  by rewrite <- isDelimiter_spec, Hc, IH.
Qed.

(** A requirement line is judged by its name alone: for a name without
    any of [= < > space tab], the line made of the name, one of these
    characters and any further text has the trimmed name as its
    requirement name, and so has the bare name; what follows the first
    delimiter never decides whether the line is dropped. *)
Theorem specifier_judged_by_name (n : jsstring) (d : N) (rest : jsstring) :
  Forall (λ c, isDelimiter c = false) n →
  isDelimiter d = true →
  requirementName (n ++ d :: rest) = trim n ∧ requirementName n = trim n.
Proof.
  intros Hn Hd. rewrite !requirementName_spec. unfold leadingPackageName.
  by rewrite beforeFirstDelimiter_app, beforeFirstDelimiter_whole.
Qed.

Lemma specifier_judged_by_name_witness :
  Forall (λ c, isDelimiter c = false) (lit "boto3")
  ∧ isDelimiter EQUALS = true
  ∧ requirementName (lit "boto3==1.4.4") = lit "boto3"
  ∧ requirementName (lit "boto3") = lit "boto3".
Proof.
  assert (Hn : Forall (λ c, isDelimiter c = false) (lit "boto3"))
    by (vm_compute; repeat constructor).
  split; [exact Hn|]. split; [reflexivity|].
  destruct (specifier_judged_by_name (lit "boto3") EQUALS (lit "=1.4.4") Hn eq_refl)
    as [H1 H2].
  split.
  - change (lit "boto3==1.4.4") with (lit "boto3" ++ EQUALS :: lit "=1.4.4").
    rewrite H1. by vm_compute.
  - rewrite H2. by vm_compute.
Defined.

(** The name test has no notion of the operators [~=] and [!=]: the
    character before the [=] stays in the name, so such a line is not
    matched by the bare package name. *)
Example compatible_release_keeps_tilde :
  requirementName (lit "boto3~=1.4") = lit "boto3~"
  ∧ requirementName (lit "boto3!=1.4") = lit "boto3!"
  ∧ requirementName (lit " boto3") = []
  ∧ requirementName (lit "Boto3==1.4") = lit "Boto3".
Proof. by vm_compute. Qed.

(** No denied package survives in the written manifest: for a source
    none of whose lines ends in a carriage return, and when the empty
    name is not denied, every line of the file written, read back as the
    filter reads it, has a name outside the denied set. *)
Theorem no_denied_name_survives (source target : jsstring) (opts : Options.t)
    (w : World) (content : jsstring) :
  files w !! source = Some content →
  Forall (λ line, last line ≠ Some CR) (split_lines content) →
  [] ∉ noDeploySet opts →
  ∃ written,
    (generateRequirementsFile source target opts w).1 = Ok ()
    ∧ files (generateRequirementsFile source target opts w).2 !! target
      = Some written
    ∧ Forall (λ line, requirementName line ∉ noDeploySet opts)
        (split_lines written).
Proof.
  intros H Hcr Hempty. rewrite (generateRequirementsFile_run _ _ _ _ _ H).
  eexists. split; [done|]. split; [apply lookup_insert_eq|].
  unfold filterManifest.
  remember (filter (λ req, requirementName req ∉ noDeploySet opts)
              (split_lines content)) as kept eqn:Ek.
  destruct (decide (kept = [])) as [->|Hne].
  - cbn [join split_lines]. by repeat constructor.
  - rewrite split_lines_join; [|done| |].
    + rewrite Ek. apply Forall_forall. intros line Hl.
      by apply list_elem_of_filter in Hl as [? _].
    + rewrite Ek. apply Forall_filter_keep, split_lines_no_LF.
    + rewrite Ek. by apply Forall_filter_keep.
Qed.

Lemma no_denied_name_survives_witness :
  let w := exampleWorld [(lit "requirements.txt", exampleManifest)] [] in
  let opts := exampleOptions false [lit "boto3"] in
  files w !! lit "requirements.txt" = Some exampleManifest
  ∧ Forall (λ line, last line ≠ Some CR) (split_lines exampleManifest)
  ∧ ([] ∉ noDeploySet opts)
  ∧ ∃ written,
      (generateRequirementsFile (lit "requirements.txt") (lit "out.txt") opts w).1
      = Ok ()
      ∧ files (generateRequirementsFile (lit "requirements.txt") (lit "out.txt")
                 opts w).2 !! lit "out.txt" = Some written
      ∧ Forall (λ line, requirementName line ∉ noDeploySet opts)
          (split_lines written).
Proof.
  intros w opts.
  assert (Hcr : Forall (λ line, last line ≠ Some CR) (split_lines exampleManifest)).
  { vm_compute. repeat constructor; congruence. }
  assert (He : [] ∉ noDeploySet opts).
  { unfold noDeploySet. intros Hin. apply elem_of_list_to_set in Hin.
    apply list_elem_of_singleton in Hin. vm_compute in Hin. discriminate Hin. }
  split; [by vm_compute|]. split; [exact Hcr|]. split; [exact He|].
  apply (no_denied_name_survives (lit "requirements.txt") (lit "out.txt") opts w
           exampleManifest); [by vm_compute|exact Hcr|exact He].
Defined.

(** ** executeCommand: what is logged, what is ignored *)

Lemma executeCommand_logged_cases host c sp opts sh w :
  (∃ call,
      spawned (executeCommand host c sp opts sh w).2 = spawned w ++ [call]
      ∧ logged (executeCommand host c sp opts sh w).2
        = logged w
            ++ (if Options.dockerizePip opts then
                  (if truthy (Options.dockerFile opts) then
                     [lit "Building custom docker image from "
                        ++ toString (Options.dockerFile opts) ++ lit "..."]
                   else [])
                  ++ [lit "Docker Image: " ++ imageOf host opts]
                else [])
            ++ [lit "running " ++ cmd call ++ lit " "
                  ++ join (lit " ") (args call)]
            ++ (if Options.verbose opts then
                  match stdout (spawnSync host (spawned w) call) with
                  | Some (x :: out) => [x :: out]
                  | _ => []
                  end
                else []))
  ∨ (Options.dockerizePip opts = false ∧ c = []
     ∧ spawned (executeCommand host c sp opts sh w).2 = spawned w).
Proof.
  unfold executeCommand, imageOf. exec_unfold.
  destruct (Options.dockerizePip opts) eqn:Hd;
    [destruct (truthy (Options.dockerFile opts))
    |destruct c as [|c0 c]; [right; done|]];
    cbn -[lit dockerOptions join toString];
    match goal with |- context [spawnSync ?h ?s ?k] =>
      destruct (spawnSync h s k) as [[e|] st [[|x out]|] err] eqn:Hres end;
    destruct (Options.verbose opts);
    cbn -[lit dockerOptions join toString];
    repeat case_bool_decide;
    cbn -[lit dockerOptions join toString];
    left; (eexists; split; [reflexivity|]);
    rewrite ?Hres; cbn -[lit dockerOptions join toString];
    rewrite <- ?app_assoc; try reflexivity; try done.
Qed.

(** The log of a run of [executeCommand]: in container mode the image
    lines, then one [running ...] line that shows exactly the command
    and arguments of the process started, then, only in verbose mode
    and only when it is not empty, the standard output of the process,
    whether the command succeeded or not. *)
Theorem executeCommand_log (host : Host) (c : list jsstring) (sp : jsstring)
    (opts : Options.t) (sh : bool) (w : World) (call : SpawnCall) :
  spawned (executeCommand host c sp opts sh w).2 = spawned w ++ [call] →
  logged (executeCommand host c sp opts sh w).2
  = logged w
      ++ (if Options.dockerizePip opts then
            (if truthy (Options.dockerFile opts) then
               [lit "Building custom docker image from "
                  ++ toString (Options.dockerFile opts) ++ lit "..."]
             else [])
            ++ [lit "Docker Image: " ++ imageOf host opts]
          else [])
      ++ [lit "running " ++ cmd call ++ lit " " ++ join (lit " ") (args call)]
      ++ (if Options.verbose opts then
            match stdout (spawnSync host (spawned w) call) with
            | Some (x :: out) => [x :: out]
            | _ => []
            end
          else []).
Proof.
  intros Hs.
  destruct (executeCommand_logged_cases host c sp opts sh w)
    as [(call0 & Hs0 & Hl)|(_ & _ & Hs0)].
  - rewrite Hs0 in Hs. by apply spawned_snoc_inv in Hs as ->.
  - rewrite Hs0 in Hs. by apply spawned_snoc_ne in Hs.
Qed.

Lemma executeCommand_log_witness :
  let host := posixHost linux 1000
                {| error := None; status := Some 1%Z;
                   stdout := Some (lit "Collecting six");
                   stderr := lit "conflict" |} in
  let opts := exampleOptions false [] in
  let w := exampleWorld [] [] in
  let call := {| cmd := lit "python3.6"; args := [lit "-m"; lit "pip"];
                 cwd := lit "/srv" |} in
  spawned (executeCommand host [lit "python3.6"; lit "-m"; lit "pip"]
             (lit "/srv") opts false w).2 = spawned w ++ [call]
  ∧ logged (executeCommand host [lit "python3.6"; lit "-m"; lit "pip"]
              (lit "/srv") opts false w).2
    = [lit "running python3.6 -m pip"].
Proof.
  intros host opts w call.
  assert (Hs : spawned (executeCommand host [lit "python3.6"; lit "-m"; lit "pip"]
                          (lit "/srv") opts false w).2 = spawned w ++ [call])
    by (by vm_compute).
  split; [exact Hs|].
  rewrite (executeCommand_log host _ _ opts false w call Hs). by vm_compute.
Defined.

(** When [spawnSync] reports ENOENT for the process of a post-install
    hook in native mode, the error thrown is the one of the installer:
    its message names the configured [pythonBin] and the [pythonBin]
    option, and not the hook command. *)
Theorem hook_enoent_blames_pythonBin (host : Host) (command : jsstring)
    (cmdArgs : option (list jsstring)) (targetFolder sp : jsstring)
    (opts : Options.t) (w : World) (e : JsError) :
  Options.dockerizePip opts = false →
  error (spawnSync host (spawned w)
           {| cmd := command;
              args := path_join host targetFolder (lit "requirements")
                        :: default [] cmdArgs;
              cwd := sp |}) = Some e →
  code e = Some (lit "ENOENT") →
  (runPostInstallScript host command cmdArgs targetFolder sp opts w).1
  = Throw (newError (Options.pythonBin opts
                       ++ lit " not found! Try the pythonBin option.")).
Proof.
  intros Hd He Hc. unfold runPostInstallScript. cbn [app].
  destruct (executeCommand_cases host
              (command :: path_join host targetFolder (lit "requirements")
                 :: default [] cmdArgs) sp opts true w)
    as [(call & _ & -> & Hr)|(_ & Hn & _)]; [|done].
  rewrite Hd in Hr. cbn -[lit] in Hr. rewrite Hr, He.
  by rewrite bool_decide_eq_true_2.
Qed.

Lemma hook_enoent_blames_pythonBin_witness :
  let host := posixHost linux 1000 (notStarted enoent) in
  let opts := exampleOptions false [] in
  let w := exampleWorld [] [] in
  Options.dockerizePip opts = false
  ∧ error (spawnSync host (spawned w)
             {| cmd := lit "strip.sh";
                args := path_join host (lit ".serverless") (lit "requirements")
                          :: default [] None;
                cwd := lit "/srv" |}) = Some enoent
  ∧ code enoent = Some (lit "ENOENT")
  ∧ (runPostInstallScript host (lit "strip.sh") None (lit ".serverless")
       (lit "/srv") opts w).1
    = Throw (newError (lit "python3.6 not found! Try the pythonBin option.")).
Proof.
  intros host opts w.
  split; [reflexivity|]. split; [reflexivity|]. split; [reflexivity|].
  rewrite (hook_enoent_blames_pythonBin host (lit "strip.sh") None
             (lit ".serverless") (lit "/srv") opts w enoent);
    by vm_compute.
Defined.

(** ** installRequirements: the filtered manifest and the pip command *)

Lemma keepsFiles_bind {A B} (m : Exec A) (k : A → Exec B) :
  keepsFiles m → (∀ a, keepsFiles (k a)) → keepsFiles (m ≫= k).
Proof.
  intros Hm Hk w. unfold mbind, Exec_bind.
  specialize (Hm w). destruct (m w) as [[a|e] w1]; simpl in *.
  - by rewrite Hk.
  - done.
Qed.

Lemma keepsFiles_when b m : keepsFiles m → keepsFiles (when b m).
Proof. by destruct b. Qed.

Lemma keepsFiles_executeCommand host c sp opts sh :
  keepsFiles (executeCommand host c sp opts sh).
Proof.
  unfold executeCommand.
  repeat match goal with
  | |- keepsFiles (_ ≫= _) => apply keepsFiles_bind; [|intros]
  | |- keepsFiles (when _ _) => apply keepsFiles_when
  | |- keepsFiles (if ?b then _ else _) => destruct b
  | |- keepsFiles (match ?x with _ => _ end) => destruct x
  | |- keepsFiles _ => done
  end.
Qed.

Lemma generateRequirementsFile_missing source target opts w :
  files w !! source = None →
  ∃ e, generateRequirementsFile source target opts w = (Throw e, w).
Proof.
  intros H. unfold generateRequirementsFile, mbind, Exec_bind, readFileSync.
  rewrite H. by eexists.
Qed.

(** When the target folder can be ensured and the manifest to filter is
    readable, [installRequirements] leaves the filtered manifest in
    [requirements.txt] of the target folder and starts exactly one
    process: pip, in isolated mode, installing into [requirements] of
    the target folder from that filtered file (both paths through
    [dockerPathForWin]), followed by the extra arguments; in container
    mode that vector closes the [docker run] arguments.  The manifest
    filtered is the named requirements file, or, with [usePipenv] and a
    [Pipfile] in the service directory, the target [requirements.txt]
    itself.  The call succeeds exactly when the process started and
    exited with status 0; the filtered manifest stays in place either
    way. *)
Theorem installRequirements_effect (host : Host)
    (requirementsPath targetFolder sp : jsstring) (opts : Options.t)
    (w : World) (content : jsstring) :
  ensureDirSync host (path_join host targetFolder (lit "requirements")) = None →
  let dotSlsReqs := path_join host targetFolder (lit "requirements.txt") in
  let source :=
    if Options.usePipenv opts
       && bool_decide (is_Some (files w !! path_join host sp (lit "Pipfile")))
    then dotSlsReqs else requirementsPath in
  files w !! source = Some content →
  let pipCmd :=
    [Options.pythonBin opts; lit "-m"; lit "pip"; lit "--isolated";
     lit "install";
     lit "-t"; dockerPathForWin (platform host) opts
                 (path_join host targetFolder (lit "requirements"));
     lit "-r"; dockerPathForWin (platform host) opts dotSlsReqs]
    ++ Options.pipCmdExtraArgs opts in
  let call :=
    {| cmd := if Options.dockerizePip opts then lit "docker"
              else Options.pythonBin opts;
       args := if Options.dockerizePip opts
               then dockerOptions host pipCmd sp opts false (imageOf host opts)
               else drop 1 pipCmd;
       cwd := sp |} in
  let res := spawnSync host (spawned w) call in
  let run := installRequirements host requirementsPath targetFolder sp opts w in
  files run.2 !! dotSlsReqs = Some (filterManifest (noDeploySet opts) content)
  ∧ spawned run.2 = spawned w ++ [call]
  ∧ (run.1 = Ok () ↔ error res = None ∧ status res = Some 0%Z).
Proof.
  intros Hens dotSlsReqs source Hsrc pipCmd call res run.
  set (w4 := {| files := <[dotSlsReqs := filterManifest (noDeploySet opts) content]>
                           (files w);
                functions := functions w;
                logged := logged w
                            ++ [lit "Installing requirements of " ++ requirementsPath
                                  ++ lit " in " ++ targetFolder ++ lit "..."];
                spawned := spawned w;
                installs := installs w ++ [(requirementsPath, targetFolder)] |}).
  assert (Hrun : run = executeCommand host pipCmd sp opts false w4).
  { unfold run, installRequirements, mbind, Exec_bind. rewrite Hens.
    cbn [attempt]. unfold source, dotSlsReqs in Hsrc.
    destruct (Options.usePipenv opts); cbn [andb] in Hsrc.
    - unfold existsSync.
      cbn -[lit generateRequirementsFile executeCommand].
      destruct (bool_decide (is_Some (files w !! path_join host sp (lit "Pipfile"))));
        by rewrite (generateRequirementsFile_run _ _ _ _ _ Hsrc).
    - cbn -[lit generateRequirementsFile executeCommand].
      by rewrite (generateRequirementsFile_run _ _ _ _ _ Hsrc). }
  rewrite Hrun.
  pose proof (keepsFiles_executeCommand host pipCmd sp opts false w4) as Hfiles.
  destruct (executeCommand_cases host pipCmd sp opts false w4)
    as [(call0 & Hs & Hc & Hr)|(_ & Hn & _)]; [|done].
  assert (Ecall : call0 = call).
  { rewrite Hc. unfold call, pipCmd.
    by destruct (Options.dockerizePip opts). }
  rewrite Ecall in Hs, Hr. clear Hc Ecall.
  change (spawned w4) with (spawned w) in Hs, Hr. fold res in Hr.
  split; [rewrite Hfiles; apply lookup_insert_eq|]. split; [done|].
  rewrite Hr. destruct (error res) as [e|].
  - split; [|by intros [? _]].
    destruct (bool_decide (code e = Some (lit "ENOENT"))); [|done].
    by destruct (Options.dockerizePip opts).
  - case_bool_decide as Hst.
    + split; [done|]. by intros [_ ?].
    + split; [|done]. intros _. split; [done|].
      destruct (decide (status res = Some 0%Z)) as [E|E]; [exact E|].
      exfalso. tauto.
Qed.

Lemma installRequirements_effect_witness :
  let host := posixHost linux 1000 (exited 0 []) in
  let opts := exampleOptions false [lit "boto3"] in
  let w := exampleWorld [(lit "requirements.txt", exampleManifest)] [] in
  let run := installRequirements host (lit "requirements.txt")
               (lit ".serverless") (lit "/srv") opts w in
  ensureDirSync host (path_join host (lit ".serverless") (lit "requirements"))
  = None
  ∧ files w !! lit "requirements.txt" = Some exampleManifest
  ∧ files run.2 !! lit ".serverless/requirements.txt"
    = Some (join [LF] [lit "numpy==1.2.3"; lit "simplejson>=3.0"])
  ∧ spawned run.2
    = [{| cmd := lit "python3.6";
          args := [lit "-m"; lit "pip"; lit "--isolated"; lit "install";
                   lit "-t"; lit ".serverless/requirements";
                   lit "-r"; lit ".serverless/requirements.txt"];
          cwd := lit "/srv" |}]
  ∧ run.1 = Ok ().
Proof.
  intros host opts w run.
  assert (H1 : ensureDirSync host
                 (path_join host (lit ".serverless") (lit "requirements")) = None)
    by reflexivity.
  assert (H2 : files w !! lit "requirements.txt" = Some exampleManifest)
    by (by vm_compute).
  destruct (installRequirements_effect host (lit "requirements.txt")
              (lit ".serverless") (lit "/srv") opts w exampleManifest H1 H2)
    as (Hf & Hs & Hr).
  split; [exact H1|]. split; [exact H2|]. split; [|split].
  - etransitivity; [exact Hf|]. by vm_compute.
  - etransitivity; [exact Hs|]. by vm_compute.
  - apply Hr. by vm_compute.
Defined.

(** When the manifest to filter cannot be read, [installRequirements]
    throws before pip is ever started: no process is run and no file is
    written. *)
Theorem installRequirements_unreadable_manifest (host : Host)
    (requirementsPath targetFolder sp : jsstring) (opts : Options.t)
    (w : World) :
  let dotSlsReqs := path_join host targetFolder (lit "requirements.txt") in
  let source :=
    if Options.usePipenv opts
       && bool_decide (is_Some (files w !! path_join host sp (lit "Pipfile")))
    then dotSlsReqs else requirementsPath in
  files w !! source = None →
  let run := installRequirements host requirementsPath targetFolder sp opts w in
  (∃ e, run.1 = Throw e)
  ∧ spawned run.2 = spawned w
  ∧ files run.2 = files w
  ∧ installs run.2 = installs w.
Proof.
  intros dotSlsReqs source Hsrc run.
  assert (Hrun : ∃ e, run = (Throw e, w)).
  { unfold run, installRequirements, mbind, Exec_bind.
    destruct (ensureDirSync host _) as [e|]; cbn [attempt]; [by eexists|].
    unfold source, dotSlsReqs in Hsrc.
    destruct (Options.usePipenv opts); cbn [andb] in Hsrc.
    - unfold existsSync. cbn -[lit generateRequirementsFile executeCommand].
      destruct (bool_decide (is_Some (files w !! path_join host sp (lit "Pipfile"))));
        destruct (generateRequirementsFile_missing _
                    (path_join host targetFolder (lit "requirements.txt"))
                    opts _ Hsrc) as [e ->]; by eexists.
    - cbn -[lit generateRequirementsFile executeCommand].
      destruct (generateRequirementsFile_missing _
                  (path_join host targetFolder (lit "requirements.txt"))
                  opts _ Hsrc) as [e ->]; by eexists. }
  destruct Hrun as [e ->]. cbn. split; [by eexists|done].
Qed.

Lemma installRequirements_unreadable_manifest_witness :
  let host := posixHost linux 1000 (exited 0 []) in
  let opts := exampleOptions false [lit "boto3"] in
  let w := exampleWorld [] [] in
  let run := installRequirements host (lit "requirements.txt")
               (lit ".serverless") (lit "/srv") opts w in
  files w !! lit "requirements.txt" = None
  ∧ (∃ e, run.1 = Throw e)
  ∧ spawned run.2 = spawned w
  ∧ files run.2 = files w
  ∧ installs run.2 = installs w.
Proof.
  intros host opts w run.
  split; [by vm_compute|].
  apply (installRequirements_unreadable_manifest host (lit "requirements.txt")
           (lit ".serverless") (lit "/srv") opts w).
  by vm_compute.
Defined.

(** ** installAllRequirements: failure, skipping, unused settings *)

(** A unit whose module identifier has already been processed is
    skipped whole: whatever vendor directory or hook it names, its turn
    writes no file, logs nothing, starts no process and no installer
    run; only an unset [module] is still defaulted to ["."] on the
    unit. *)
Theorem claimed_module_is_skipped (host : Host) (this : Plugin)
    (seen : list jsstring) (i : nat) (f : Func.t) (w : World) :
  functions w !! i = Some f →
  moduleId f ∈ seen →
  let run := perFunction host this seen i w in
  run.1 = Ok seen
  ∧ files run.2 = files w
  ∧ logged run.2 = logged w
  ∧ spawned run.2 = spawned w
  ∧ installs run.2 = installs w
  ∧ functions run.2
    = if truthy (Func.module f) then functions w
      else alter (Func.set_module (lit ".")) i (functions w).
Proof.
  intros Hf Hseen run. unfold run, perFunction, mbind, Exec_bind, readFunction.
  rewrite Hf. unfold moduleId in Hseen.
  destruct (truthy (Func.module f)) eqn:Ht; cbn [negb when].
  - cbn -[lit]. rewrite Hf. unfold installModule.
    rewrite bool_decide_eq_true_2 by done. done.
  - cbn -[lit]. rewrite list_lookup_alter_eq, Hf.
    cbn [fmap option_fmap option_map]. unfold installModule.
    cbn [Func.module Func.set_module toString default].
    rewrite bool_decide_eq_true_2 by done. done.
Qed.

Lemma claimed_module_is_skipped_witness :
  let host := posixHost linux 1000 (exited 0 []) in
  let hooked := {| Func.module := None; Func.vendor := Some (lit "vendor");
                   Func.pipPostInstallScript := Some (lit "strip.sh");
                   Func.pipPostInstallArgs := None |} in
  let w := exampleWorld [] [hooked] in
  let run := perFunction host (examplePlugin true) [lit "."] 0 w in
  functions w !! 0%nat = Some hooked
  ∧ moduleId hooked ∈ [lit "."]
  ∧ run.1 = Ok [lit "."]
  ∧ spawned run.2 = []
  ∧ logged run.2 = [].
Proof.
  intros host hooked w run.
  assert (H1 : functions w !! 0%nat = Some hooked) by reflexivity.
  assert (H2 : moduleId hooked ∈ [lit "."]) by (apply elem_of_cons; by left).
  destruct (claimed_module_is_skipped host (examplePlugin true) [lit "."] 0
              hooked w H1 H2) as (Hr & _ & Hl & Hs & _).
  split; [exact H1|]. split; [exact H2|]. split; [exact Hr|].
  split; [exact Hs|exact Hl].
Defined.

(** Per-unit mode with no function installs nothing: once the
    [.serverless] folder is ensured the run completes without reading a
    manifest, starting a process or logging a line. *)
Theorem per_unit_without_functions (host : Host) (this : Plugin) (w : World) :
  individually this = true →
  functions w = [] →
  ensureDirSync host (path_join host (servicePath this) (lit ".serverless"))
  = None →
  installAllRequirements host this w = (Ok (), w).
Proof.
  intros Hind Hnone Hens.
  unfold installAllRequirements, mbind, Exec_bind, countFunctions.
  rewrite Hind, Hens. cbn [attempt]. unfold mret at 1, Exec_ret at 1.
  cbv beta iota. rewrite Hnone. reflexivity.
Qed.

Lemma per_unit_without_functions_witness :
  let host := posixHost linux 1000 (exited 0 []) in
  let w := exampleWorld [(lit "requirements.txt", exampleManifest)] [] in
  individually (examplePlugin true) = true
  ∧ functions w = []
  ∧ ensureDirSync host
      (path_join host (servicePath (examplePlugin true)) (lit ".serverless"))
    = None
  ∧ installAllRequirements host (examplePlugin true) w = (Ok (), w).
Proof.
  intros host w.
  split; [reflexivity|]. split; [reflexivity|]. split; [reflexivity|].
  exact (per_unit_without_functions host (examplePlugin true) w
           eq_refl eq_refl eq_refl).
Defined.

(** Per-unit mode never uses the project-wide vendor directory and
    post-install hook of the options: whatever they are set to, the run
    is the same. *)
Theorem per_unit_ignores_global_extras (host : Host) (this : Plugin)
    (v s : option jsstring) (a : option (list jsstring)) (w : World) :
  individually this = true →
  installAllRequirements host
    {| servicePath := servicePath this; individually := individually this;
       options := withGlobalExtras (options this) v s a |} w
  = installAllRequirements host this w.
Proof.
  intros Hind. unfold installAllRequirements. cbn [individually servicePath options].
  rewrite Hind. reflexivity.
Qed.

Lemma per_unit_ignores_global_extras_witness :
  let host := posixHost linux 1000 (exited 0 []) in
  individually (examplePlugin true) = true
  ∧ installAllRequirements host
      {| servicePath := lit "/srv"; individually := true;
         options := withGlobalExtras (exampleOptions false [lit "boto3"])
                      (Some (lit "vendor")) (Some (lit "strip.sh")) None |}
      exampleService
    = installAllRequirements host (examplePlugin true) exampleService.
Proof.
  intros host. split; [reflexivity|].
  exact (per_unit_ignores_global_extras host (examplePlugin true)
           (Some (lit "vendor")) (Some (lit "strip.sh")) None exampleService
           eq_refl).
Defined.

Lemma oblivious_ret {A} (a : A) : oblivious (mret a).
Proof. done. Qed.

Lemma oblivious_throw {A} e : oblivious (@throw A e).
Proof. done. Qed.

Lemma oblivious_bind {A B} (m : Exec A) (k : A → Exec B) :
  oblivious m → (∀ a, oblivious (k a)) → oblivious (m ≫= k).
Proof.
  intros Hm Hk w units. unfold mbind, Exec_bind. rewrite Hm.
  destruct (m w) as [[a|e] w1]; cbn [fst snd]; [apply Hk|done].
Qed.

Lemma oblivious_when b m : oblivious m → oblivious (when b m).
Proof. by destruct b. Qed.

Lemma oblivious_attempt r : oblivious (attempt r).
Proof. by destruct r. Qed.

Lemma oblivious_readFileSync p : oblivious (readFileSync p).
Proof.
  intros w units. unfold readFileSync. cbn [withFunctions files].
  by destruct (files w !! p).
Qed.

Ltac oblivious_step :=
  match goal with
  | |- oblivious (_ ≫= _) => apply oblivious_bind; [|intros]
  | |- oblivious (when _ _) => apply oblivious_when
  | |- oblivious (attempt _) => apply oblivious_attempt
  | |- oblivious (readFileSync _) => apply oblivious_readFileSync
  | |- oblivious (if ?b then _ else _) => destruct b
  | |- oblivious (match ?x with _ => _ end) => destruct x
  | |- oblivious _ => done
  end.

Lemma oblivious_generateRequirementsFile source target opts :
  oblivious (generateRequirementsFile source target opts).
Proof. unfold generateRequirementsFile. repeat oblivious_step. Qed.

Lemma oblivious_executeCommand host c sp opts sh :
  oblivious (executeCommand host c sp opts sh).
Proof. unfold executeCommand. repeat oblivious_step. Qed.

Lemma oblivious_installRequirements host rp tf sp opts :
  oblivious (installRequirements host rp tf sp opts).
Proof.
  unfold installRequirements.
  repeat first
    [ apply oblivious_generateRequirementsFile
    | apply oblivious_executeCommand
    | oblivious_step ].
Qed.

(** Single-pass mode never looks at the functions of the service: with
    any other function objects (other modules, vendor directories or
    hooks) the outcome and every effect of the run are the same, and
    the objects are left as they are. *)
Theorem single_pass_ignores_functions (host : Host) (this : Plugin)
    (w : World) (units : list Func.t) :
  individually this = false →
  installAllRequirements host this (withFunctions w units)
  = ((installAllRequirements host this w).1,
     withFunctions (installAllRequirements host this w).2 units).
Proof.
  intros Hind. revert w units. change (oblivious (installAllRequirements host this)).
  unfold installAllRequirements, copyVendors, runPostInstallScript. rewrite Hind.
  repeat first
    [ apply oblivious_installRequirements
    | apply oblivious_executeCommand
    | oblivious_step ].
Qed.

Lemma single_pass_ignores_functions_witness :
  let host := posixHost linux 1000 (exited 0 []) in
  let this := examplePlugin false in
  individually this = false
  ∧ installAllRequirements host this (withFunctions exampleService [])
    = ((installAllRequirements host this exampleService).1,
       withFunctions (installAllRequirements host this exampleService).2 []).
Proof.
  intros host this. split; [reflexivity|].
  exact (single_pass_ignores_functions host this exampleService [] eq_refl).
Defined.

(** ** dockerPathForWin: what is left of a nested path *)

Lemma rewriteFirstSeparator_count p :
  length (rewriteFirstSeparator p) = length p
  ∧ backslashes (rewriteFirstSeparator p) = pred (backslashes p).
Proof.
  unfold backslashes. induction p as [|c p [IHl IHb]]; [done|].
  cbn [rewriteFirstSeparator]. destruct (N.eqb_spec c BACKSLASH) as [->|Hc].
  - split; [done|]. rewrite !filter_cons.
    destruct (decide (SLASH = BACKSLASH)) as [E|_]; [discriminate E|].
    destruct (decide (BACKSLASH = BACKSLASH)) as [_|E]; [done|by destruct E].
  - split; [cbn; by rewrite IHl|]. rewrite !filter_cons.
    destruct (decide (c = BACKSLASH)) as [E|_]; [by destruct Hc|done].
Qed.

(** The translated path has the length of the path and, on win32 in
    container mode, exactly one backslash fewer (none fewer when there
    was none): a path with two or more backslashes still has one after
    translation. *)
Theorem translation_removes_one_separator (pf : Platform) (opts : Options.t)
    (p : jsstring) :
  length (dockerPathForWin pf opts p) = length p
  ∧ backslashes (dockerPathForWin pf opts p)
    = if bool_decide (pf = win32) && Options.dockerizePip opts
      then pred (backslashes p) else backslashes p.
Proof.
  unfold dockerPathForWin.
  destruct (bool_decide (pf = win32) && Options.dockerizePip opts); [|done].
  rewrite replace_backslash. apply rewriteFirstSeparator_count.
Qed.

Example nested_windows_path_keeps_backslash :
  dockerPathForWin win32 (exampleOptions true [])
    (lit ".serverless\svc2\requirements.txt")
  = lit ".serverless/svc2\requirements.txt".
Proof. by vm_compute. Qed.

(** ** The processes a run starts *)

Lemma quiet_ret {A} (a : A) : quiet (mret a).
Proof. done. Qed.

Lemma quiet_throw {A} e : quiet (@throw A e).
Proof. done. Qed.

Lemma quiet_bind {A B} (m : Exec A) (k : A → Exec B) :
  quiet m → (∀ a, quiet (k a)) → quiet (m ≫= k).
Proof.
  intros Hm Hk w. unfold mbind, Exec_bind.
  destruct (Hm w) as [Hf Hs]. destruct (m w) as [[a|e] w1]; simpl in *.
  - destruct (Hk a w1) as [-> ->]. done.
  - done.
Qed.

Lemma quiet_readFileSync p : quiet (readFileSync p).
Proof. intros w. unfold readFileSync. by destruct (files w !! p). Qed.

Lemma quiet_attempt r : quiet (attempt r).
Proof. by destruct r. Qed.

Lemma quiet_when b m : quiet m → quiet (when b m).
Proof. by destruct b. Qed.

Ltac quiet_step :=
  match goal with
  | |- quiet (_ ≫= _) => apply quiet_bind; [|intros]
  | |- quiet (when _ _) => apply quiet_when
  | |- quiet (attempt _) => apply quiet_attempt
  | |- quiet (readFileSync _) => apply quiet_readFileSync
  | |- quiet (if ?b then _ else _) => destruct b
  | |- quiet _ => done
  end.

Lemma quiet_generateRequirementsFile source target opts :
  quiet (generateRequirementsFile source target opts).
Proof. unfold generateRequirementsFile. repeat quiet_step. Qed.

Lemma quiet_copyVendors host v t : quiet (copyVendors host v t).
Proof. unfold copyVendors. repeat quiet_step. Qed.

Lemma hoare_quiet {A} (m : Exec A) units0 started :
  quiet m → hoare (ran units0 started) m (λ _, ran units0 started).
Proof.
  intros Hq w [Hf Hs]. destruct (Hq w) as [Ef Es]. unfold ran.
  by rewrite Ef, Es.
Qed.

Lemma ranPrefix_none units0 started next w :
  ran units0 started w → ranPrefix units0 started next w.
Proof.
  intros H. exists []. split; [apply prefix_nil|]. by rewrite app_nil_r.
Qed.

Lemma ranPrefix_all units0 started next w :
  ran units0 (started ++ next) w → ranPrefix units0 started next w.
Proof. intros H. by exists next. Qed.

(** [executeCommand] on a non-empty vector starts exactly the process
    [processOf] describes, whatever its outcome. *)
Lemma executeCommand_process host c sp opts sh w :
  c ≠ [] →
  spawned (executeCommand host c sp opts sh w).2
  = spawned w ++ [processOf host c sp opts sh].
Proof.
  intros Hc.
  destruct (executeCommand_cases host c sp opts sh w)
    as [(call & Hs & -> & _)|(_ & Hn & _)]; [exact Hs|done].
Qed.

Lemma hoare_executeCommand_ran host c sp opts sh units0 started :
  c ≠ [] →
  hoare (ran units0 started) (executeCommand host c sp opts sh)
    (λ _, ran units0 (started ++ [processOf host c sp opts sh])).
Proof.
  intros Hc w [Hf Hs]. split.
  - destruct (keeps_executeCommand host c sp opts sh w) as [-> _]. done.
  - by rewrite executeCommand_process, Hs.
Qed.

Lemma hoare_installRequirements_ran host rp tf sp opts units0 started :
  hoare (ran units0 started) (installRequirements host rp tf sp opts)
    (λ r w,
       match r with
       | Ok _ => ran units0 (started ++ [installerProcess host sp opts tf]) w
       | Throw _ =>
           ranPrefix units0 started [installerProcess host sp opts tf] w
       end).
Proof.
  unfold installRequirements.
  eapply hoare_bind;
    [apply hoare_quiet; repeat quiet_step| |intros ? ? ?; by apply ranPrefix_none].
  intros ?.
  eapply hoare_bind;
    [apply hoare_quiet; destruct (Options.usePipenv opts); repeat quiet_step
    | |intros ? ? ?; by apply ranPrefix_none].
  intros pipfile.
  eapply hoare_bind;
    [apply hoare_quiet; destruct pipfile; apply quiet_generateRequirementsFile
    | |intros ? ? ?; by apply ranPrefix_none].
  intros ?.
  eapply hoare_bind; [apply hoare_quiet; repeat quiet_step| |intros ? ? ?; by apply ranPrefix_none].
  intros ?.
  eapply hoare_bind; [apply hoare_quiet; repeat quiet_step| |intros ? ? ?; by apply ranPrefix_none].
  intros ? w Hst.
  pose proof (hoare_executeCommand_ran host (pipVector host opts tf) sp opts false
                units0 started ltac:(done) w Hst) as H.
  cbn beta in H. fold (installerProcess host sp opts tf) in H.
  change (executeCommand host (pipVector host opts tf) sp opts false w)
    with (executeCommand host
            ([Options.pythonBin opts; lit "-m"; lit "pip"; lit "--isolated";
              lit "install"; lit "-t";
              dockerPathForWin (platform host) opts
                (path_join host tf (lit "requirements"));
              lit "-r";
              dockerPathForWin (platform host) opts
                (path_join host tf (lit "requirements.txt"))]
               ++ Options.pipCmdExtraArgs opts) sp opts false w) in H.
  destruct (executeCommand _ _ _ _ _ w) as [[?|?] ?]; cbn [fst snd] in *;
    [done|by apply ranPrefix_all].
Qed.

Lemma hoare_hook_ran host sp opts tf script scriptArgs units0 started :
  hoare (ran units0 started)
    (when (truthy script)
       (runPostInstallScript host (toString script) scriptArgs tf sp opts))
    (λ _, ran units0 (started ++ hookProcesses host sp opts tf script scriptArgs)).
Proof.
  unfold hookProcesses. destruct (truthy script); cbn [when].
  - unfold runPostInstallScript. cbn [app].
    by apply hoare_executeCommand_ran.
  - intros w Hst. cbn. by rewrite app_nil_r.
Qed.

Lemma hoare_installModule_ran host this f seen units0 started :
  hoare (ran units0 started) (installModule host this f seen)
    (λ r w,
       let m := toString (Func.module f) in
       let next :=
         if bool_decide (m ∈ seen) then []
         else moduleProcesses host this m (Func.pipPostInstallScript f)
                (Func.pipPostInstallArgs f) in
       match r with
       | Ok seen' =>
           seen' = seen ++ (if bool_decide (m ∈ seen) then [] else [m])
           ∧ ran units0 (started ++ next) w
       | Throw _ => ranPrefix units0 started next w
       end).
Proof.
  unfold installModule, moduleProcesses. case_bool_decide.
  - apply hoare_ret. intros w Hst. cbn. by rewrite !app_nil_r.
  - eapply hoare_bind; [apply hoare_installRequirements_ran| |].
    2: { intros e w (l & Hl & Hst). exists l. split; [|done].
         etransitivity; [exact Hl|]. by apply prefix_cons, prefix_nil. }
    intros ?.
    eapply hoare_bind;
      [apply hoare_quiet, quiet_when, quiet_copyVendors| |].
    2: { intros e w Hst. exists [installerProcess host (servicePath this)
                                    (options this)
                                    (path_join host (lit ".serverless")
                                       (toString (Func.module f)))].
         split; [by apply prefix_cons, prefix_nil|done]. }
    intros ?.
    eapply hoare_bind; [apply hoare_hook_ran| |].
    2: { intros e w Hst. apply ranPrefix_all.
         by rewrite <- app_assoc in Hst. }
    intros ?. apply hoare_ret. intros w Hst. split; [done|].
    by rewrite <- app_assoc in Hst.
Qed.

Lemma defaulted_hook g f :
  defaulted g f →
  Func.pipPostInstallScript f = Func.pipPostInstallScript g
  ∧ Func.pipPostInstallArgs f = Func.pipPostInstallArgs g.
Proof. by intros [->|[_ ->]]. Qed.

Lemma hoare_perFunction_ran host this seen i g units0 started :
  units0 !! i = Some g →
  hoare (ran units0 started) (perFunction host this seen i)
    (λ r w,
       let next := if bool_decide (moduleId g ∈ seen) then []
                   else unitProcesses host this g in
       match r with
       | Ok seen' =>
           seen' = seen ++ (if bool_decide (moduleId g ∈ seen) then []
                            else [moduleId g])
           ∧ ran units0 (started ++ next) w
       | Throw _ => ranPrefix units0 started next w
       end).
Proof.
  intros Hg w [HF HS].
  destruct (Forall2_lookup_l _ _ _ _ _ HF Hg) as (f & Hf & Hd).
  pose proof (defaulted_moduleId _ _ Hd) as Hm.
  destruct (defaulted_hook _ _ Hd) as [Hscript Hargs].
  unfold perFunction, mbind, Exec_bind, readFunction. rewrite Hf.
  unfold unitProcesses.
  destruct (truthy (Func.module f)) eqn:Ht; cbn [negb when].
  - cbn -[lit]. rewrite Hf.
    assert (E : toString (Func.module f) = moduleId g).
    { rewrite <- Hm. unfold moduleId. by rewrite Ht. }
    rewrite <- E, <- Hscript, <- Hargs.
    by apply (hoare_installModule_ran host this f seen units0 started).
  - cbn -[lit]. rewrite list_lookup_alter_eq, Hf.
    cbn [fmap option_fmap option_map].
    assert (E : toString (Func.module (Func.set_module (lit ".") f)) = moduleId g).
    { rewrite <- Hm. unfold moduleId. by rewrite Ht. }
    rewrite <- E, <- Hscript, <- Hargs.
    apply (hoare_installModule_ran host this (Func.set_module (lit ".") f)
             seen units0 started).
    split; [|done]. cbn.
    apply Forall2_alter_r; [done|].
    intros x y Hx Hy Hxy. rewrite Hf in Hy. injection Hy as <-.
    by apply defaulted_set_module.
Qed.

Lemma firstClaimUnits_ids seen units :
  moduleId <$> firstClaimUnits seen units = firstClaims seen (moduleId <$> units).
Proof.
  revert seen. induction units as [|g units IH]; intros seen; [done|].
  cbn [firstClaimUnits firstClaims fmap list_fmap].
  destruct (bool_decide (moduleId g ∈ seen)); [apply IH|].
  cbn [fmap list_fmap]. f_equal. apply IH.
Qed.

Lemma hoare_forEach_ran host this units0 indices units :
  Forall2 (λ i g, units0 !! i = Some g) indices units →
  ∀ seen started,
    hoare (ran units0 started) (forEach (perFunction host this) seen indices)
      (λ r w,
         let next := concat (unitProcesses host this
                               <$> firstClaimUnits seen units) in
         match r with
         | Ok seen' =>
             seen' = seen ++ (moduleId <$> firstClaimUnits seen units)
             ∧ ran units0 (started ++ next) w
         | Throw _ => ranPrefix units0 started next w
         end).
Proof.
  induction 1 as [|i g indices units Hg _ IH]; intros seen started.
  - apply hoare_ret. intros w Hst. cbn. by rewrite !app_nil_r.
  - cbn [forEach firstClaimUnits].
    eapply hoare_bind; [by apply hoare_perFunction_ran| |].
    + intros seen'. cbn zeta.
      destruct (bool_decide (moduleId g ∈ seen)); intros w [-> Hst].
      * rewrite !app_nil_r in *. by apply IH.
      * specialize (IH (seen ++ [moduleId g]) _ w Hst). cbn zeta in IH.
        cbn [fmap list_fmap concat].
        destruct (forEach _ _ _ w) as [[seen''|e] w']; cbn [fst snd] in *.
        -- destruct IH as [-> IH]. split; [by rewrite <- app_assoc|].
           by rewrite <- app_assoc in IH.
        -- destruct IH as (l & Hl & IH).
           exists (unitProcesses host this g ++ l).
           split; [by apply prefix_app|by rewrite <- app_assoc in IH].
    + intros e w. cbn zeta.
      destruct (bool_decide (moduleId g ∈ seen)); intros (l & Hl & Hst).
      * apply prefix_nil_inv in Hl as ->. rewrite app_nil_r in Hst.
        by apply ranPrefix_none.
      * exists l. split; [|done]. cbn [fmap list_fmap concat].
        by apply prefix_app_r.
Qed.

Lemma seq_units (units0 : list Func.t) :
  Forall2 (λ i g, units0 !! i = Some g) (seq 0 (length units0)) units0.
Proof.
  apply Forall2_same_length_lookup_2.
  - by rewrite length_seq.
  - intros i x y Hx Hy. apply lookup_seq in Hx as [-> _]. done.
Qed.

Lemma hoare_installAllRequirements_ran host this units0 started :
  hoare (ran units0 started) (installAllRequirements host this)
    (λ r w,
       let next :=
         if individually this
         then concat (unitProcesses host this <$> firstClaimUnits [] units0)
         else projectProcesses host this in
       match r with
       | Ok _ => ran units0 (started ++ next) w
       | Throw _ => ranPrefix units0 started next w
       end).
Proof.
  unfold installAllRequirements, projectProcesses.
  eapply hoare_bind; [apply hoare_quiet, quiet_attempt| |].
  2: { intros e w Hst. by apply ranPrefix_none. }
  intros ?. destruct (individually this).
  - eapply hoare_bind with
      (R := λ r w, r = Ok (length units0) ∧ ran units0 started w).
    + intros w Hst. split; [|done]. cbn. f_equal.
      destruct Hst as [HF _]. symmetry. by apply Forall2_length in HF.
    + intros n.
      eapply hoare_bind with
        (R := λ r w,
           let next := concat (unitProcesses host this
                                 <$> firstClaimUnits [] units0) in
           match r with
           | Ok _ => ran units0 (started ++ next) w
           | Throw _ => ranPrefix units0 started next w
           end).
      * intros w [[= ->] Hst].
        pose proof (hoare_forEach_ran host this units0 _ _ (seq_units units0)
                      [] started w Hst) as H.
        cbn zeta in *.
        destruct (forEach _ _ _ w) as [[seen'|e] w']; cbn [fst snd] in *;
          [by destruct H|done].
      * intros seen'. apply hoare_ret. by intros w Hst.
      * done.
    + intros e w [? _]. done.
  - eapply hoare_bind; [apply hoare_installRequirements_ran| |].
    2: { intros e w (l & Hl & Hst). exists l. split; [|done].
         etransitivity; [exact Hl|]. by apply prefix_cons, prefix_nil. }
    intros ?.
    eapply hoare_bind;
      [apply hoare_quiet, quiet_when, quiet_copyVendors| |].
    2: { intros e w Hst.
         exists [installerProcess host (servicePath this) (options this)
                   (lit ".serverless")].
         split; [by apply prefix_cons, prefix_nil|done]. }
    intros ? w Hst.
    pose proof (hoare_hook_ran host (servicePath this) (options this)
                  (lit ".serverless")
                  (Options.pipPostInstallScript (options this))
                  (Options.pipPostInstallArgs (options this)) units0 _ w Hst)
      as H.
    cbn beta in H. rewrite <- app_assoc in H.
    destruct (when _ _ w) as [[?|?] ?]; cbn [fst snd] in *;
      [done|by apply ranPrefix_all].
Qed.

Lemma world_ran (w : World) : ran (functions w) (spawned w) w.
Proof.
  split; [|done]. apply Forall_Forall2_diag, Forall_forall.
  intros f _. apply defaulted_refl.
Qed.

Lemma length_unitProcesses host this (units : list Func.t) :
  length (concat (unitProcesses host this <$> units))
  = (length units
     + length (filter (λ g, truthy (Func.pipPostInstallScript g) = true) units))%nat.
Proof.
  induction units as [|g units IH]; [done|].
  cbn [fmap list_fmap concat]. rewrite length_app, IH, filter_cons.
  unfold unitProcesses, moduleProcesses, hookProcesses.
  destruct (truthy (Func.pipPostInstallScript g)); cbn [length].
  - rewrite decide_True by done. cbn [length]. lia.
  - rewrite decide_False by done. lia.
Qed.

(** C2 as stated fails when a step throws: with three units, two on
    ["."] and one on [svc2], and an installer that exits with status 1,
    the run is aborted by the first installation and one installer
    process has been started, not [3 - 2 + 1]. *)
Lemma failing_installer_stops_the_run :
  let host := posixHost linux 1000 (exited 1 (lit "conflict")) in
  let this := examplePlugin true in
  let ids := moduleId <$> functions exampleService in
  individually this = true
  ∧ length ids = 3%nat
  ∧ length (filter (λ m, m = lit ".") ids) = 2%nat
  ∧ NoDup (filter (λ m, m ≠ lit ".") ids)
  ∧ (installAllRequirements host this exampleService).1
    = Throw (newError (lit "conflict"))
  ∧ spawned (installAllRequirements host this exampleService).2
    = [{| cmd := lit "python3.6";
          args := [lit "-m"; lit "pip"; lit "--isolated"; lit "install";
                   lit "-t"; lit ".serverless/requirements";
                   lit "-r"; lit ".serverless/requirements.txt"];
          cwd := lit "/srv" |}]
  ∧ length (spawned (installAllRequirements host this exampleService).2)
    ≠ (3 - 2 + 1)%nat.
Proof.
  intros host this ids.
  split; [reflexivity|]. split; [by vm_compute|]. split; [by vm_compute|].
  split; [apply (bool_decide_unpack _); by vm_compute|].
  split; [by vm_compute|]. split; [by vm_compute|].
  vm_compute. lia.
Qed.

(** C2, amended: in per-unit mode, for [N] units of which [M >= 1] have
    the module identifier ["."] (named, or defaulted when unset) and
    the others pairwise-distinct identifiers, a run that completes (no
    step throws; a throw aborts the run) has started exactly
    [N - M + 1] installer processes: the processes started are, for
    each unit that is the first to claim its identifier, in order, one
    installer process for that identifier followed by the hook process
    of that unit if it has one; a unit whose identifier was claimed
    before starts none. *)
Theorem dedup_installer_runs (host : Host) (this : Plugin) (w : World) :
  individually this = true →
  (installAllRequirements host this w).1 = Ok () →
  let ids := moduleId <$> functions w in
  let N := length ids in
  let M := length (filter (λ m, m = lit ".") ids) in
  (1 ≤ M)%nat →
  NoDup (filter (λ m, m ≠ lit ".") ids) →
  let claimants := firstClaimUnits [] (functions w) in
  spawned (installAllRequirements host this w).2
  = spawned w
      ++ concat
           ((λ g,
               installerProcess host (servicePath this) (options this)
                 (path_join host (lit ".serverless") (moduleId g))
               :: hookProcesses host (servicePath this) (options this)
                    (path_join host (lit ".serverless") (moduleId g))
                    (Func.pipPostInstallScript g) (Func.pipPostInstallArgs g))
              <$> claimants)
  ∧ length claimants = (N - M + 1)%nat
  ∧ moduleId <$> claimants = firstClaims [] ids
  ∧ NoDup (moduleId <$> claimants)
  ∧ (∀ m, m ∈ moduleId <$> claimants ↔ m ∈ ids)
  ∧ length (spawned (installAllRequirements host this w).2)
    = (length (spawned w) + (N - M + 1)
       + length (filter (λ g, truthy (Func.pipPostInstallScript g) = true)
                   claimants))%nat.
Proof.
  intros Hind Hok. cbv zeta. intros HM Hnd.
  pose proof (hoare_installAllRequirements_ran host this _ _ w (world_ran w))
    as H.
  cbn zeta beta in H. rewrite Hok, Hind in H. destruct H as [_ Hs].
  assert (Hlen : length (firstClaimUnits [] (functions w))
                 = (length (moduleId <$> functions w)
                    - length (filter (λ m, m = lit ".") (moduleId <$> functions w))
                    + 1)%nat).
  { rewrite <- (length_fmap moduleId), firstClaimUnits_ids.
    rewrite firstClaims_length by done.
    rewrite (bool_decide_eq_false_2 (lit "." ∈ [])) by apply not_elem_of_nil.
    assert (Hdot : lit "." ∈ moduleId <$> functions w).
    { destruct (filter (λ m, m = lit ".") (moduleId <$> functions w))
        as [|x l] eqn:E; [cbn in HM; lia|].
      assert (Hx : x ∈ filter (λ m, m = lit ".") (moduleId <$> functions w))
        by (rewrite E; apply elem_of_cons; by left).
      apply list_elem_of_filter in Hx as [-> Hx]. done. }
    rewrite (bool_decide_eq_true_2 _ Hdot).
    assert (Hf : filter (λ m, m ≠ lit "." ∧ m ∉ []) (moduleId <$> functions w)
                 = filter (λ m, ¬ m = lit ".") (moduleId <$> functions w)).
    { apply list_filter_iff. intros x. split; [tauto|].
      intros ?. split; [done|apply not_elem_of_nil]. }
    rewrite Hf.
    pose proof (length_filter_split (λ m, m = lit ".") (moduleId <$> functions w))
      as Hsplit.
    cbn beta in Hsplit. lia. }
  split; [exact Hs|]. split; [exact Hlen|].
  split; [apply firstClaimUnits_ids|].
  split; [rewrite firstClaimUnits_ids; apply firstClaims_NoDup|].
  split.
  { intros m. rewrite firstClaimUnits_ids, firstClaims_elem. split; [tauto|].
    intros ?. split; [done|apply not_elem_of_nil]. }
  rewrite Hs, length_app.
  change (concat _) with
    (concat (unitProcesses host this <$> firstClaimUnits [] (functions w))).
  rewrite length_unitProcesses, Hlen. lia.
Qed.

(** Three units, two of them on ["."] and one on [svc2], and an
    installer that succeeds: two installer processes. *)
Lemma dedup_installer_runs_witness :
  let host := posixHost linux 1000 (exited 0 []) in
  let this := examplePlugin true in
  let w := exampleService in
  individually this = true
  ∧ (installAllRequirements host this w).1 = Ok ()
  ∧ (1 ≤ length (filter (λ m, m = lit ".") (moduleId <$> functions w)))%nat
  ∧ NoDup (filter (λ m, m ≠ lit ".") (moduleId <$> functions w))
  ∧ spawned (installAllRequirements host this w).2
    = [{| cmd := lit "python3.6";
          args := [lit "-m"; lit "pip"; lit "--isolated"; lit "install";
                   lit "-t"; lit ".serverless/requirements";
                   lit "-r"; lit ".serverless/requirements.txt"];
          cwd := lit "/srv" |};
       {| cmd := lit "python3.6";
          args := [lit "-m"; lit "pip"; lit "--isolated"; lit "install";
                   lit "-t"; lit ".serverless/svc2/requirements";
                   lit "-r"; lit ".serverless/svc2/requirements.txt"];
          cwd := lit "/srv" |}]
  ∧ length (firstClaimUnits [] (functions w)) = (3 - 2 + 1)%nat.
Proof.
  intros host this w.
  assert (H1 : individually this = true) by reflexivity.
  assert (H2 : (installAllRequirements host this w).1 = Ok ()) by (by vm_compute).
  assert (H3 : (1 ≤ length (filter (λ m, m = lit ".")
                              (moduleId <$> functions w)))%nat)
    by (vm_compute; lia).
  assert (H4 : NoDup (filter (λ m, m ≠ lit ".") (moduleId <$> functions w))).
  { apply (bool_decide_unpack _). by vm_compute. }
  destruct (dedup_installer_runs host this w H1 H2 H3 H4) as (Hs & Hl & _).
  split; [exact H1|]. split; [exact H2|]. split; [exact H3|].
  split; [exact H4|]. split.
  - rewrite Hs. by vm_compute.
  - rewrite Hl. by vm_compute.
Defined.



(** Single-pass mode starts at most one installer process, for the
    [.serverless] folder, and after it at most one hook process, that
    of the options; it starts exactly these when the run completes,
    and a first part of them when a step throws. *)
Theorem single_pass_processes (host : Host) (this : Plugin) (w : World) :
  individually this = false →
  ∃ started,
    started `prefix_of` projectProcesses host this
    ∧ spawned (installAllRequirements host this w).2 = spawned w ++ started
    ∧ ((installAllRequirements host this w).1 = Ok () →
       started = projectProcesses host this).
Proof.
  intros Hind.
  pose proof (hoare_installAllRequirements_ran host this _ _ w (world_ran w))
    as H.
  cbn zeta beta in H. rewrite Hind in H.
  destruct ((installAllRequirements host this w).1) as [[]|e].
  - exists (projectProcesses host this). destruct H as [_ Hs]. done.
  - destruct H as (l & Hl & _ & Hs). exists l. done.
Qed.

Lemma single_pass_processes_witness :
  let host := posixHost linux 1000 (exited 0 []) in
  let this := examplePlugin false in
  individually this = false
  ∧ spawned (installAllRequirements host this exampleService).2
    = [{| cmd := lit "python3.6";
          args := [lit "-m"; lit "pip"; lit "--isolated"; lit "install";
                   lit "-t"; lit ".serverless/requirements";
                   lit "-r"; lit ".serverless/requirements.txt"];
          cwd := lit "/srv" |}].
Proof.
  intros host this. split; [reflexivity|].
  destruct (single_pass_processes host this exampleService eq_refl)
    as (started & _ & Hs & Hall).
  rewrite Hs, Hall; by vm_compute.
Defined.

(** ** executeCommand: what reaches the command line *)

Lemma executeCommand_process_any host c sp opts sh w :
  (c ≠ [] ∨ Options.dockerizePip opts = true) →
  spawned (executeCommand host c sp opts sh w).2
  = spawned w ++ [processOf host c sp opts sh].
Proof.
  intros Hc.
  destruct (executeCommand_cases host c sp opts sh w)
    as [(call & Hs & -> & _)|(Hd & Hn & _)]; [exact Hs|].
  destruct Hc as [Hc|Hc]; [done|congruence].
Qed.




(** In native mode what [executeCommand] hands to [spawnSync] is the
    vector as it is: its first element as the command, the rest as the
    arguments, the service path as the working directory, on every
    host and whatever [useShellAlways] is; exactly one process is
    started, and a hook gets no [/bin/bash -c] wrapping from the
    plugin. *)
Theorem native_mode_hands_over_the_vector (host : Host) (c0 : jsstring)
    (rest : list jsstring) (sp : jsstring) (opts : Options.t) (sh : bool)
    (w : World) :
  Options.dockerizePip opts = false →
  spawned (executeCommand host (c0 :: rest) sp opts sh w).2
  = spawned w ++ [{| cmd := c0; args := rest; cwd := sp |}].
Proof.
  intros Hd. rewrite executeCommand_process_any by (by left).
  unfold processOf. by rewrite Hd.
Qed.

Lemma native_mode_hands_over_the_vector_witness :
  Options.dockerizePip (exampleOptions false []) = false
  ∧ spawned (executeCommand (posixHost darwin 501 (exited 0 []))
               [lit "strip.sh"; lit ".serverless/requirements"] (lit "/srv")
               (exampleOptions false []) true (exampleWorld [] [])).2
    = spawned (exampleWorld [] [])
        ++ [{| cmd := lit "strip.sh";
               args := [lit ".serverless/requirements"];
               cwd := lit "/srv" |}].
Proof.
  split; [reflexivity|].
  exact (native_mode_hands_over_the_vector (posixHost darwin 501 (exited 0 []))
           (lit "strip.sh") [lit ".serverless/requirements"] (lit "/srv")
           (exampleOptions false []) true (exampleWorld [] []) eq_refl).
Defined.
